(** * Financial analyser: categoriser and aggregator (src/NEW.py)

    A shallow embedding of the core of [NEW.py]: the keyword categoriser
    ([categorize_transaction_with_multiple], [categorize_all_transactions])
    and the three aggregation passes ([calculate_basic_stats],
    [calculate_by_category], [analyze_by_time]).

    Modelling conventions.
    - A Python [str] is its sequence of Unicode code points ([list N]);
      literals are written in UTF-8 and decoded by [u].
    - A Python [dict] is an insertion-ordered association list with unique
      keys ([dict_get], [dict_set]); iteration order is insertion order.
    - A transaction is a dict object with the keys the readers produce;
      the keys read through [.get(key, default)] are optional fields.
    - Amounts are exact rationals ([Q]); the rounding of binary64
      arithmetic is outside the model.  Python's [int] is [Z].
    - Code that runs with a mutable object in scope is written in a state
      and exception monad [M S], so that what a function reads, writes and
      raises is explicit.
    - The library calls [str.lower], [datetime.strptime] and
      [datetime.strftime] are parameters of the development. *)

From Stdlib Require Import List ZArith NArith QArith Lia Lqa Bool String Ascii.
From Stdlib Require Import Sorted Permutation.
Import ListNotations.

Set Implicit Arguments.

(* ================================================================== *)
(** ** Strings *)

(** A Python string: a sequence of code points. *)
Definition str := list N.

Fixpoint eqb_str (a b : str) : bool :=
  match a, b with
  | [], [] => true
  | x :: a', y :: b' => N.eqb x y && eqb_str a' b'
  | _, _ => false
  end.

(** UTF-8 decoding of a literal (well-formed input only). *)
Fixpoint utf8_decode (bs : list N) : str :=
  match bs with
  | [] => []
  | b0 :: r0 =>
      if (b0 <? 128)%N then b0 :: utf8_decode r0
      else match r0 with
           | [] => [b0]
           | b1 :: r1 =>
               if (b0 <? 224)%N then
                 ((b0 - 192) * 64 + (b1 - 128))%N :: utf8_decode r1
               else match r1 with
                    | [] => [b0]
                    | b2 :: r2 =>
                        if (b0 <? 240)%N then
                          ((b0 - 224) * 4096 + (b1 - 128) * 64 + (b2 - 128))%N
                            :: utf8_decode r2
                        else match r2 with
                             | [] => [b0]
                             | b3 :: r3 =>
                                 ((b0 - 240) * 262144 + (b1 - 128) * 4096
                                  + (b2 - 128) * 64 + (b3 - 128))%N
                                   :: utf8_decode r3
                             end
                    end
           end
  end.

Definition u (s : string) : str :=
  utf8_decode (map Byte.to_N (list_byte_of_string s)).

(** [is_prefix p s]: [s] starts with [p]. *)
Fixpoint is_prefix (p s : str) : bool :=
  match p, s with
  | [], _ => true
  | x :: p', y :: s' => N.eqb x y && is_prefix p' s'
  | _ :: _, [] => false
  end.

(** [contains kw s] is Python's [kw in s] on strings: [kw] occurs as a
    contiguous substring of [s] (the empty string occurs everywhere). *)
Fixpoint contains (kw s : str) : bool :=
  is_prefix kw s ||
  match s with
  | [] => false
  | _ :: s' => contains kw s'
  end.

(* ================================================================== *)
(** ** Insertion-ordered dictionaries *)

Section Dict.
Variable V : Type.

Definition dict := list (str * V).

(** [d.get(k)] *)
Fixpoint dict_get (d : dict) (k : str) : option V :=
  match d with
  | [] => None
  | (k', v) :: rest => if eqb_str k k' then Some v else dict_get rest k
  end.

(** [k in d] *)
Definition dict_mem (d : dict) (k : str) : bool :=
  match dict_get d k with Some _ => true | None => false end.

(** [d[k] = v]: an existing key keeps its position, a new key is
    appended. *)
Fixpoint dict_set (d : dict) (k : str) (v : V) : dict :=
  match d with
  | [] => [(k, v)]
  | (k', v') :: rest =>
      if eqb_str k k' then (k', v) :: rest
      else (k', v') :: dict_set rest k v
  end.

Definition dict_keys (d : dict) : list str := map fst d.
End Dict.

Arguments dict_get {V} d k.
Arguments dict_mem {V} d k.
Arguments dict_set {V} d k v.
Arguments dict_keys {V} d.

(* ================================================================== *)
(** ** Exceptions and the state monad *)

Inductive exn : Type :=
| ValueError (data : str)      (* strptime: time data does not match *)
| ZeroDivisionError
| KeyError (key : str).

Inductive result (A : Type) : Type :=
| OK (a : A)
| Raise (e : exn).
Arguments OK {A} a.
Arguments Raise {A} e.

(** A computation over a mutable state [S] that returns an [A] or raises.
    The state survives an exception, as a Python object does. *)
Definition M (S A : Type) : Type := S -> result A * S.

Definition ret {S A} (a : A) : M S A := fun s => (OK a, s).

Definition bind {S A B} (m : M S A) (k : A -> M S B) : M S B :=
  fun s => match m s with
           | (OK a, s') => k a s'
           | (Raise e, s') => (Raise e, s')
           end.

Definition raise {S A} (e : exn) : M S A := fun s => (Raise e, s).

Declare Scope monad_scope.
Delimit Scope monad_scope with monad.
Notation "x <- m ;; k" := (bind m (fun x => k))
  (at level 61, m at next level, right associativity) : monad_scope.
Notation "m ;;; k" := (bind m (fun _ => k))
  (at level 61, right associativity) : monad_scope.
Open Scope monad_scope.

(** [for t in ts: acc = body acc] with [t] bound to each object of the
    list in turn.  The objects are threaded through the body, so a write
    to [t] is visible in the list afterwards; an exception leaves the loop
    with the objects as they are at that point. *)
Fixpoint for_each {T A} (body : A -> M T A) (acc : A) : M (list T) A :=
  fun ts =>
    match ts with
    | [] => (OK acc, [])
    | t :: rest =>
        match body acc t with
        | (OK acc', t') =>
            let (r, rest') := for_each body acc' rest in (r, t' :: rest')
        | (Raise e, t') => (Raise e, t' :: rest)
        end
    end.

(* ================================================================== *)
(** ** Transactions *)

(** A transaction dict.  ['date'] and ['amount'] are read with [t[...]] and
    always written by the readers; ['description'] and ['category'] are read
    with [.get] and may be absent; ['type'] is written by the readers and
    never read by the core. *)
Record transaction : Type := mkTransaction {
  date : str;
  amount : Q;
  description : option str;
  txn_type : option str;
  category : option str
}.

(** [t['amount']] *)
Definition getitem_amount : M transaction Q := fun t => (OK (amount t), t).
(** [t['date']] *)
Definition getitem_date : M transaction str := fun t => (OK (date t), t).
(** [t.get('description', default)] *)
Definition get_description (default : str) : M transaction str :=
  fun t => (OK (match description t with Some d => d | None => default end), t).
(** [t.get('category', default)] *)
Definition get_category (default : str) : M transaction str :=
  fun t => (OK (match category t with Some c => c | None => default end), t).
(** [t['category'] = c] *)
Definition setitem_category (c : str) : M transaction unit :=
  fun t => (OK tt, mkTransaction (date t) (amount t) (description t)
                                 (txn_type t) (Some c)).

(* ================================================================== *)
(** ** The rule table (module-level constants of NEW.py) *)

Definition categories : dict (list str) :=
  [ (u "продукты", [u "продукты"; u "магазин"; u "продуктовый"; u "пятёрочка"; u "ника"; u "касира"]);
    (u "обед и рестораны", [u "ресторан"; u "кафе"; u "обед"; u "бесплатно"; u "ужин"; u "завтрак"]);
    (u "транспорт", [u "такси"; u "автобус"; u "метро"; u "транспорт"; u "билет"]);
    (u "услуги", [u "мобильный"; u "интернет"; u "услуга"; u "сервис"; u "ремонт"]);
    (u "развлечения", [u "кино"; u "театр"; u "концерт"; u "игры"; u "кинотеатр"]);
    (u "одежда", [u "одежда"; u "обувь"; u "магазин одежды"; u "гардероб"]);
    (u "здравоохранение", [u "аптека"; u "лекарство"; u "медицин"; u "врач"]);
    (u "спорт", [u "спорт"; u "тренажёрка"; u "фитнес"; u "спортзал"]);
    (u "образование", [u "курс"; u "учеба"; u "школа"; u "университет"]);
    (u "коммунальные услуги", [u "Коммуналка"; u "вода"; u "электричество"; u "газ"]);
    (u "депозит/инвестиции", [u "клиентов"; u "депозит"; u "инвестиции"]);
    (u "зарплата и доходы", [u "зарплата"; u "доход"; u "перевод"]);
    (u "погашение кредита", [u "кредит"; u "ипотека"; u "погашение"]);
    (u "подарки", [u "подарок"; u "поздравление"]);
    (u "налоги", [u "налог"; u "фискальный"]) ].

Definition categories_priority : list str :=
  [ u "зарплата и доходы";
    u "погашение кредита";
    u "продукты";
    u "обед и рестораны";
    u "транспорт";
    u "услуги";
    u "развлечения";
    u "одежда";
    u "здравоохранение";
    u "спорт";
    u "образование";
    u "коммунальные услуги";
    u "депозит/инвестиции";
    u "подарки";
    u "налоги" ].

(** The fallback category returned when nothing matches. *)
Definition fallback : str := u "другое".

(** The default of [t.get('category', ...)] in the aggregator. *)
Definition no_category : str := u "Без категории".

(* ================================================================== *)
(** ** Numbers *)

(** [x < y] on amounts. *)
Definition Qltb (x y : Q) : bool := negb (Qle_bool y x).

(** [a / b], raising [ZeroDivisionError] as Python does. *)
Definition truediv {S} (a b : Q) : M S Q :=
  if Qeq_bool b 0 then raise ZeroDivisionError else ret (a / b).

(** [len(xs)] and the identity of the list in scope. *)
Definition len {T} : M (list T) Z := fun ts => (OK (Z.of_nat (List.length ts)), ts).
Definition this {S} : M S S := fun s => (OK s, s).

(** [d[k]] on a local dictionary. *)
Definition getitem {S V} (d : dict V) (k : str) : M S V :=
  match dict_get d k with
  | Some v => ret v
  | None => raise (KeyError k)
  end.

(** [for k, v in d.items(): v = f k v], the values being updated in place. *)
Fixpoint for_items {S V} (f : str -> V -> M S V) (d : dict V) : M S (dict V) :=
  match d with
  | [] => ret []
  | (k, v) :: rest =>
      v' <- f k v ;;
      rest' <- for_items f rest ;;
      ret ((k, v') :: rest')
  end.

(** [sum(t['amount'] for t in transactions if cond(t['amount']))] *)
Definition sum_amounts_if (cond : Q -> bool) : M (list transaction) Q :=
  for_each (fun acc : Q =>
              a <- getitem_amount ;;
              if cond a then (x <- getitem_amount ;; ret (acc + x)) else ret acc)
           0.

(* ================================================================== *)
(** ** collections.Counter *)

(** [Counter(xs)]: the elements in first-occurrence order with their
    number of occurrences. *)
Definition Counter (xs : list str) : dict Z :=
  fold_left (fun c x =>
               dict_set c x (match dict_get c x with
                             | Some n => (n + 1)%Z
                             | None => 1%Z
                             end))
            xs [].

(** Stable insertion by descending count: [x], which stood before every
    element of [l], goes before the first element whose count does not
    exceed its own. *)
Fixpoint insert_desc (x : str * Z) (l : list (str * Z)) : list (str * Z) :=
  match l with
  | [] => [x]
  | y :: l' =>
      if (snd x <? snd y)%Z then y :: insert_desc x l' else x :: y :: l'
  end.

(** [sorted(items, key=itemgetter(1), reverse=True)] *)
Definition sorted_desc (items : list (str * Z)) : list (str * Z) :=
  fold_right insert_desc [] items.

(** [c.most_common(n)], that is [heapq.nlargest(n, c.items(), key=count)],
    which is [sorted(..., reverse=True)[:n]]. *)
Definition most_common (n : nat) (c : dict Z) : list (str * Z) :=
  firstn n (sorted_desc c).

(* ================================================================== *)
(** ** Results of the aggregator *)

Record basic_stats : Type := mkBasic {
  total_income : Q;
  total_expense : Q;
  balance : Q;
  transaction_count : Z
}.

(** A value of [category_totals]; ['percent'] is added by the second loop. *)
Record category_entry : Type := mkCat {
  cat_sum : Q;
  cat_count : Z;
  cat_percent : option Q
}.

(** A value of [monthly_stats]; ['top_categories'] is added by the second
    loop. *)
Record month_entry : Type := mkMonth {
  income : Q;
  expenses : Q;
  month_categories : list str;
  top_categories : option (list (str * Z))
}.

(* ================================================================== *)
(** ** The categoriser and the aggregator *)

Section Core.

(** [str.lower] *)
Variable lower : str -> str.
(** [datetime.datetime], [strptime(_, '%Y-%m-%d')] ([None]: the call
    raises [ValueError]) and [strftime('%Y-%m')]. *)
Variable datetime : Type.
Variable strptime : str -> option datetime.
Variable strftime : datetime -> str.

Definition categorize_transaction_with_multiple
    (description : str) (categories : dict (list str))
    (categories_priority : list str) : str :=
  let description_low := lower description in
  let matched_categories :=
    fold_left
      (fun matched category =>
         let keywords := match dict_get categories category with
                         | Some ks => ks
                         | None => []
                         end in
         if existsb (fun keyword => contains keyword description_low) keywords
         then matched ++ [category]
         else matched)
      categories_priority [] in
  match matched_categories with
  | c :: _ => c
  | [] => fallback
  end.

Definition categorize_all_transactions : M (list transaction) (list transaction) :=
  for_each (fun _ : unit =>
              desc <- get_description [] ;;
              let category :=
                categorize_transaction_with_multiple desc categories
                                                     categories_priority in
              setitem_category category)
           tt ;;;
  this.

Definition calculate_basic_stats : M (list transaction) basic_stats :=
  total_income <- sum_amounts_if (fun a => Qltb 0 a) ;;
  total_expense <- sum_amounts_if (fun a => Qltb a 0) ;;
  let balance := total_income + total_expense in
  count_transactions <- len ;;
  ret (mkBasic total_income total_expense balance count_transactions).

Definition calculate_by_category : M (list transaction) (dict category_entry) :=
  let category_totals := [] in
  total_expenses <- sum_amounts_if (fun a => Qltb a 0) ;;
  category_totals <-
    for_each
      (fun category_totals : dict category_entry =>
         category <- get_category no_category ;;
         let category_totals :=
           if dict_mem category_totals category then category_totals
           else dict_set category_totals category (mkCat 0 0 None) in
         data <- getitem category_totals category ;;
         a <- getitem_amount ;;
         let category_totals :=
           dict_set category_totals category
                    (mkCat (cat_sum data + a) (cat_count data) (cat_percent data)) in
         data <- getitem category_totals category ;;
         ret (dict_set category_totals category
                       (mkCat (cat_sum data) (cat_count data + 1) (cat_percent data))))
      category_totals ;;
  for_items
    (fun cat data =>
       percent <- (if negb (Qeq_bool total_expenses 0)
                   then q <- truediv (- cat_sum data) (- total_expenses) ;;
                        ret (q * 100)
                   else ret 0) ;;
       ret (mkCat (cat_sum data) (cat_count data) (Some percent)))
    category_totals.

Definition analyze_by_time : M (list transaction) (dict month_entry) :=
  let monthly_stats := [] in
  monthly_stats <-
    for_each
      (fun monthly_stats : dict month_entry =>
         d <- getitem_date ;;
         date_obj <- match strptime d with
                     | Some o => ret o
                     | None => raise (ValueError d)
                     end ;;
         let month_key := strftime date_obj in
         let monthly_stats :=
           if dict_mem monthly_stats month_key then monthly_stats
           else dict_set monthly_stats month_key (mkMonth 0 0 [] None) in
         a <- getitem_amount ;;
         if Qltb 0 a then
           data <- getitem monthly_stats month_key ;;
           x <- getitem_amount ;;
           ret (dict_set monthly_stats month_key
                         (mkMonth (income data + x) (expenses data)
                                  (month_categories data) (top_categories data)))
         else
           a <- getitem_amount ;;
           if Qltb a 0 then
             data <- getitem monthly_stats month_key ;;
             x <- getitem_amount ;;
             let monthly_stats :=
               dict_set monthly_stats month_key
                        (mkMonth (income data) (expenses data + x)
                                 (month_categories data) (top_categories data)) in
             data <- getitem monthly_stats month_key ;;
             c <- get_category no_category ;;
             ret (dict_set monthly_stats month_key
                           (mkMonth (income data) (expenses data)
                                    (month_categories data ++ [c])
                                    (top_categories data)))
           else ret monthly_stats)
      monthly_stats ;;
  for_items
    (fun month data =>
       let category_counter := Counter (month_categories data) in
       let most_common := most_common 3 category_counter in
       ret (mkMonth (income data) (expenses data) (month_categories data)
                    (Some most_common)))
    monthly_stats.

End Core.

(* ================================================================== *)
(** ** Instances of the library calls, for running the code *)

Module Lib.

(** [str.lower] on Basic Latin and on the Cyrillic block U+0400..U+045F,
    where lower-casing maps one code point to one code point; other code
    points are left alone, so the instance is [str.lower] only on strings
    over these two alphabets and caseless characters. *)
Definition lower_cp (c : N) : N :=
  if ((65 <=? c) && (c <=? 90))%N then (c + 32)%N
  else if ((1040 <=? c) && (c <=? 1071))%N then (c + 32)%N
  else if ((1024 <=? c) && (c <=? 1039))%N then (c + 80)%N
  else c.

Definition lower (s : str) : str := map lower_cp s.

Record datetime : Type := mkDate { year : Z; month : Z; day : Z }.

Definition digit (c : N) : option Z :=
  if ((48 <=? c) && (c <=? 57))%N then Some (Z.of_N c - 48)%Z else None.

Fixpoint number (acc : Z) (cs : list N) : option Z :=
  match cs with
  | [] => Some acc
  | c :: cs' => match digit c with
                | Some d => number (acc * 10 + d) cs'
                | None => None
                end
  end.

Definition is_leap (y : Z) : bool :=
  ((y mod 4 =? 0) && negb (y mod 100 =? 0) || (y mod 400 =? 0))%Z.

Definition days_in_month (y m : Z) : Z :=
  if (m =? 2)%Z then (if is_leap y then 29 else 28)%Z
  else if ((m =? 4) || (m =? 6) || (m =? 9) || (m =? 11))%Z then 30%Z
  else 31%Z.

(** [strptime(s, '%Y-%m-%d')] on zero-padded ASCII dates: four digits,
    ['-'], two digits, ['-'], two digits, naming a day of the proleptic
    Gregorian calendar in the years 1..9999.  The library's parser accepts
    a few more spellings (an unpadded month or day); the instance rejects
    them. *)
Definition strptime (s : str) : option datetime :=
  match s with
  | [y1; y2; y3; y4; h1; m1; m2; h2; d1; d2] =>
      if (N.eqb h1 45 && N.eqb h2 45)%bool then
        match number 0 [y1; y2; y3; y4], number 0 [m1; m2], number 0 [d1; d2] with
        | Some y, Some m, Some d =>
            if ((1 <=? y) && (1 <=? m) && (m <=? 12) && (1 <=? d)
                && (d <=? days_in_month y m))%Z
            then Some (mkDate y m d) else None
        | _, _, _ => None
        end
      else None
  | _ => None
  end.

Definition digit_of (d : Z) : N := (48 + Z.to_N (d mod 10))%N.

(** [strftime('%Y-%m')]: the year on four digits, the month on two. *)
Definition strftime (d : datetime) : str :=
  [ digit_of (year d / 1000); digit_of (year d / 100); digit_of (year d / 10);
    digit_of (year d); 45%N; digit_of (month d / 10); digit_of (month d) ].

End Lib.

(* ================================================================== *)
(** ** Views used in the statements *)

(** Python's [sum(xs)]: a left fold from the integer 0. *)
Definition py_sum (xs : list Q) : Q := fold_left Qplus xs 0.

(** The key under which the aggregator files a transaction:
    [t.get('category', 'Без категории')]. *)
Definition bucket_key (t : transaction) : str :=
  match category t with Some c => c | None => no_category end.

(** The transactions filed under key [k]. *)
Definition in_bucket (k : str) (ts : list transaction) : list transaction :=
  filter (fun t => eqb_str (bucket_key t) k) ts.

Definition is_expense (t : transaction) : bool := Qltb (amount t) 0.
Definition is_income (t : transaction) : bool := Qltb 0 (amount t).

(** The keywords configured for a category: [categories.get(c, [])]. *)
Definition keywords_of (categories : dict (list str)) (c : str) : list str :=
  match dict_get categories c with Some ks => ks | None => [] end.

(** Category [c] has a keyword inside the lower-cased description. *)
Definition matches (lower : str -> str) (categories : dict (list str))
    (description c : str) : bool :=
  existsb (fun keyword => contains keyword (lower description))
          (keywords_of categories c).

(** The category field after a transaction has been categorised. *)
Definition categorized (lower : str -> str) (t : transaction) : transaction :=
  mkTransaction (date t) (amount t) (description t) (txn_type t)
    (Some (categorize_transaction_with_multiple lower
             (match description t with Some d => d | None => [] end)
             categories categories_priority)).

(** Position of the first occurrence of [x] in [l] ([length l] if none). *)
Fixpoint first_index (x : str) (l : list str) : nat :=
  match l with
  | [] => 0
  | y :: l' => if eqb_str x y then 0 else S (first_index x l')
  end.

(** Number of occurrences of [x] in [l]. *)
Fixpoint occurrences (x : str) (l : list str) : Z :=
  match l with
  | [] => 0
  | y :: l' => ((if eqb_str x y then 1 else 0) + occurrences x l')%Z
  end.

(** [x] ranks before [y] in the frequency ranking of [l]: a larger count,
    or the same count and an earlier first occurrence. *)
Definition ranks_before (l : list str) (x y : str * Z) : Prop :=
  (snd y < snd x)%Z \/
  (snd y = snd x /\ (first_index (fst x) l < first_index (fst y) l)%nat).

Section TimeViews.
Variable datetime : Type.
Variable strptime : str -> option datetime.
Variable strftime : datetime -> str.

(** The month key of a transaction, when its date parses. *)
Definition month_key (t : transaction) : option str :=
  match strptime (date t) with
  | Some o => Some (strftime o)
  | None => None
  end.

Definition in_month (m : str) (ts : list transaction) : list transaction :=
  filter (fun t => match month_key t with
                   | Some k => eqb_str k m
                   | None => false
                   end) ts.

(** The categories of the expense transactions of month [m], in input
    order, duplicates retained. *)
Definition month_expense_categories (m : str) (ts : list transaction) : list str :=
  map bucket_key (filter is_expense (in_month m ts)).
End TimeViews.

(** Exception-aware left fold: the value of a loop whose body does not
    write to the object it visits. *)
Fixpoint fold_result {T A} (step : A -> T -> result A) (ts : list T) (acc : A)
  : result A :=
  match ts with
  | [] => OK acc
  | t :: rest => match step acc t with
                 | OK acc' => fold_result step rest acc'
                 | Raise e => Raise e
                 end
  end.


(** One pass of the grouping loop of [calculate_by_category] on the entry of
    a bucket: the entry is created at zero if absent, the amount is added
    and the count incremented. *)
Definition bump_entry (o : option category_entry) (a : Q) : category_entry :=
  match o with
  | Some e => mkCat (cat_sum e + a) (cat_count e + 1) (cat_percent e)
  | None => mkCat (0 + a) (0 + 1) None
  end.

Definition cat_step (d : dict category_entry) (t : transaction)
  : dict category_entry :=
  dict_set d (bucket_key t) (bump_entry (dict_get d (bucket_key t)) (amount t)).

(** The percentage expression of [calculate_by_category]. *)
Definition percent_of (total_expenses bucket_sum : Q) : Q :=
  if negb (Qeq_bool total_expenses 0)
  then (- bucket_sum / - total_expenses) * 100
  else 0.

(** Sum of the counts of all buckets. *)
Definition total_count (d : dict category_entry) : Z :=
  fold_right (fun kv acc => (cat_count (snd kv) + acc)%Z) 0%Z d.

(** Total expenses as [calculate_by_category] computes them. *)
Definition total_expenses_of (ts : list transaction) : Q :=
  py_sum (map amount (filter is_expense ts)).

(** One pass of the loop of [analyze_by_time] on the entry of a month: the
    entry is created at zero if absent; a positive amount goes to the
    income, a negative one to the expenses and its category to the list;
    a zero amount changes nothing. *)
Definition bump_month (o : option month_entry) (t : transaction) : month_entry :=
  let e := match o with Some e => e | None => mkMonth 0 0 [] None end in
  if Qltb 0 (amount t) then
    mkMonth (income e + amount t) (expenses e) (month_categories e)
            (top_categories e)
  else if Qltb (amount t) 0 then
    mkMonth (income e) (expenses e + amount t)
            (month_categories e ++ [bucket_key t]) (top_categories e)
  else e.

Definition month_step_at (k : str) (d : dict month_entry) (t : transaction)
  : dict month_entry :=
  dict_set d k (bump_month (dict_get d k) t).

(** The second loop of [analyze_by_time] on one entry. *)
Definition finish_month (e : month_entry) : month_entry :=
  mkMonth (income e) (expenses e) (month_categories e)
          (Some (most_common 3 (Counter (month_categories e)))).

Section TimeSteps.
Variable datetime : Type.
Variable strptime : str -> option datetime.
Variable strftime : datetime -> str.

(** The first loop of [analyze_by_time] on one transaction. *)
Definition time_step (d : dict month_entry) (t : transaction)
  : result (dict month_entry) :=
  match strptime (date t) with
  | Some o => OK (month_step_at (strftime o) d t)
  | None => Raise (ValueError (date t))
  end.

(** The same when the date is known to parse. *)
Definition month_step (d : dict month_entry) (t : transaction)
  : dict month_entry :=
  match month_key strptime strftime t with
  | Some k => month_step_at k d t
  | None => d
  end.
End TimeSteps.

(** The update of [Counter] for one element: [c[x] = c.get(x, 0) + 1]. *)
Definition count_step (c : dict Z) (x : str) : dict Z :=
  dict_set c x (match dict_get c x with
                | Some n => (n + 1)%Z
                | None => 1%Z
                end).

(** [x] comes before [y] in a stable descending sort of a list that was
    ordered by [P]: a larger count, or the same count and [P]. *)
Definition desc_stable (P : str * Z -> str * Z -> Prop) (x y : str * Z) : Prop :=
  (snd y < snd x)%Z \/ (snd y = snd x /\ P x y).

(** [kw] occurs in [s] as a contiguous substring. *)
Definition substring (kw s : str) : Prop :=
  exists pre post, s = pre ++ kw ++ post.

(** Category [c] has at least one keyword that occurs in the lower-cased
    description. *)
Definition has_match (lower : str -> str) (categories : dict (list str))
    (description c : str) : Prop :=
  exists keyword,
    In keyword (keywords_of categories c) /\
    substring keyword (lower description).

(** No keyword of the configured table occurs in [s]. *)
Definition no_keyword_in (s : str) : bool :=
  forallb (fun entry => forallb (fun kw => negb (contains kw s)) (snd entry))
          categories.

(* ================================================================== *)
(** ** Sample inputs *)

Module Sample.

(** A transaction as the readers build it, before categorisation. *)
Definition txn (d : string) (a : Q) (desc : string) : transaction :=
  mkTransaction (u d) a (Some (u desc)) None None.

(** The three transactions of the end-to-end example. *)
Definition salary : transaction := txn "2024-01-05" 1000 "зарплата".
Definition lunch : transaction := txn "2024-01-10" (-50) "кафе обед".
Definition taxi : transaction := txn "2024-02-01" (-200) "такси поездка".
Definition three : list transaction := [salary; lunch; taxi].

(** A transaction with an empty description. *)
Definition blank : transaction := mkTransaction [] 0 (Some []) None None.

(** A description that matches two categories: "кредит" belongs to the
    second category of the priority list, "кафе" to the fourth. *)
Definition two_matches : str := u "Кафе в кредит".

(** A transaction with no ['category'] key and one whose category is the
    empty string. *)
Definition no_key : transaction :=
  mkTransaction (u "2024-03-01") (-10) (Some (u "x")) None None.
Definition empty_key : transaction :=
  mkTransaction (u "2024-03-02") (-30) (Some (u "y")) None (Some []).

(** A transaction whose date is not a date, and a zero-amount one. *)
Definition bad_date : transaction := txn "05.01.2024" (-5) "кафе".
Definition nothing : transaction :=
  mkTransaction (u "2024-03-07") 0 (Some (u "z")) None (Some (u "транспорт")).

End Sample.

(* ================================================================== *)
(** ** Totals over a dictionary *)

(** [sum(f(v) for v in d.values())] as a number. *)
Definition dict_total {V} (f : V -> Q) (d : dict V) : Q :=
  fold_right (fun kv acc => f (snd kv) + acc) 0 d.


(** The sum of the counts of a ranking. *)
Definition ranking_total (top : list (str * Z)) : Z :=
  fold_right (fun kv acc => (snd kv + acc)%Z) 0%Z top.

Section MonthKeys.
Variable datetime : Type.
Variable strptime : str -> option datetime.
Variable strftime : datetime -> str.

(** The month keys of the transactions whose date parses, in input order. *)
Definition month_keys (ts : list transaction) : list str :=
  flat_map (fun t => match month_key strptime strftime t with
                     | Some k => [k]
                     | None => []
                     end) ts.
End MonthKeys.

(* ================================================================== *)
(** ** The readers (read_csv_file, read_json_file, import_financial_data)

    The readers talk to the file system and to the [csv] and [json]
    libraries.  What these return for a file name is a parameter: a CSV
    file is the sequence of rows [csv.DictReader] yields, a JSON file is
    the value [json.load] returns.  [float] of a string and [str.strip] are
    parameters as well.  What the readers print is collected in a log. *)

(** The exceptions the readers and [main] can meet. *)
Inductive py_error : Type :=
| FileNotFoundError
| JSONDecodeError
| OtherError (name : str)     (* any other failure of open or of a library *)
| FloatValueError (s : str)   (* float(s): could not convert string *)
| TypeError
| AttributeError
| Raised (e : exn).           (* an exception of the aggregator *)

Inductive outcome (A : Type) : Type :=
| Return (a : A)
| Throw (e : py_error).
Arguments Return {A} a.
Arguments Throw {A} e.

Definition obind {A B} (m : outcome A) (k : A -> outcome B) : outcome B :=
  match m with
  | Return a => k a
  | Throw e => Throw e
  end.

(** A computation that prints: the lines printed so far are the state. *)
Definition IO (A : Type) : Type := list str -> outcome A * list str.

Definition io_ret {A} (a : A) : IO A := fun log => (Return a, log).

Definition io_bind {A B} (m : IO A) (k : A -> IO B) : IO B :=
  fun log => match m log with
             | (Return a, log') => k a log'
             | (Throw e, log') => (Throw e, log')
             end.

Definition io_lift {A} (o : outcome A) : IO A := fun log => (o, log).

(** [print(line)] *)
Definition print (line : str) : IO unit := fun log => (Return tt, log ++ [line]).

(** [try: m  except ...: handler], the handler choosing the exceptions it
    catches. *)
Definition try_except {A} (m : IO A) (handler : py_error -> option (IO A)) : IO A :=
  fun log => match m log with
             | (Return a, log') => (Return a, log')
             | (Throw e, log') => match handler e with
                                  | Some h => h log'
                                  | None => (Throw e, log')
                                  end
             end.

Declare Scope io_scope.
Delimit Scope io_scope with io.
Notation "x <-- m ;; k" := (io_bind m (fun x => k))
  (at level 61, m at next level, right associativity) : io_scope.
Notation "x <~ m ;; k" := (obind m (fun x => k))
  (at level 61, m at next level, right associativity) : io_scope.

(** A value returned by [json.load]. *)
#[warnings="-register-all"] Inductive json : Type :=
| JNull
| JBool (b : bool)
| JNumber (q : Q)
| JString (s : str)
| JArray (items : list json)
| JObject (members : list (str * json)).

(** A row of [csv.DictReader]: a column maps to its text, or to [None]
    when the row is shorter than the header. *)
Definition csv_row : Type := dict (option str).

(** An opened CSV file: the rows the reader yields and the exception, if
    any, that ends the iteration. *)
Record csv_file : Type := mkCsv {
  csv_rows : list csv_row;
  csv_failure : option py_error
}.

(** ["доход" if amount >= 0 else "расход"] *)
Definition transact_type_of (amount : Q) : str :=
  if Qle_bool 0 amount then u "доход" else u "расход".

(** [for row in rows: data.append(convert(row))], then the end of the
    iteration. *)
Fixpoint collect {R} (convert : R -> outcome transaction) (rows : list R)
    (failure : option py_error) (data : list transaction)
  : outcome (list transaction) :=
  match rows with
  | [] => match failure with
          | None => Return data
          | Some e => Throw e
          end
  | row :: rest =>
      match convert row with
      | Return t => collect convert rest failure (data ++ [t])
      | Throw e => Throw e
      end
  end.

Section Readers.

Open Scope io_scope.

(** [str.lower], [str.strip] and [float] of a string ([None]: ValueError). *)
Variable lower : str -> str.
Variable strip : str -> str.
Variable float_of_str : str -> option Q.
(** [open] followed by [csv.DictReader], and [open] followed by
    [json.load]. *)
Variable open_csv : str -> outcome csv_file.
Variable load_json : str -> outcome json.
(** [os.path.exists] and [os.path.splitext(_)[1]]. *)
Variable path_exists : str -> bool.
Variable splitext_ext : str -> str.

(** [float(row.get('amount', 0))] on a CSV row. *)
Definition csv_float (cell : option (option str)) : outcome Q :=
  match cell with
  | None => Return 0
  | Some None => Throw TypeError
  | Some (Some s) => match float_of_str s with
                     | Some q => Return q
                     | None => Throw (FloatValueError s)
                     end
  end.

(** [row.get(key, '').strip()] on a CSV row. *)
Definition csv_strip (cell : option (option str)) : outcome str :=
  match cell with
  | None => Return (strip [])
  | Some None => Throw AttributeError
  | Some (Some s) => Return (strip s)
  end.

(** The body of the loop of [read_csv_file]. *)
Definition csv_transaction (row : csv_row) : outcome transaction :=
  amount <~ csv_float (dict_get row (u "amount")) ;;
  let transact_type := transact_type_of amount in
  d <~ csv_strip (dict_get row (u "date")) ;;
  desc <~ csv_strip (dict_get row (u "description")) ;;
  Return (mkTransaction d amount (Some desc) (Some transact_type) None).

Definition read_csv_file (filename : str) : IO (list transaction) :=
  try_except
    (file <-- io_lift (open_csv filename) ;;
     io_lift (collect csv_transaction (csv_rows file) (csv_failure file) []))
    (fun e => match e with
              | FileNotFoundError =>
                  Some (_ <-- print (u "Error: The CSV file could not be found.") ;;
                        io_ret [])
              | _ => None
              end).

(** [v.get(key, default)]: only a JSON object has [get]. *)
Definition json_get (v : json) (key : str) : outcome (option json) :=
  match v with
  | JObject members => Return (dict_get members key)
  | _ => Throw AttributeError
  end.

(** [float(operation.get('amount', 0))] *)
Definition json_float (v : option json) : outcome Q :=
  match v with
  | None => Return 0
  | Some (JNumber q) => Return q
  | Some (JBool b) => Return (if b then 1 else 0)
  | Some (JString s) => match float_of_str s with
                        | Some q => Return q
                        | None => Throw (FloatValueError s)
                        end
  | Some _ => Throw TypeError
  end.

(** [operation.get(key, '').strip()]: only a string has [strip]. *)
Definition json_strip (v : option json) : outcome str :=
  match v with
  | None => Return (strip [])
  | Some (JString s) => Return (strip s)
  | Some _ => Throw AttributeError
  end.

(** What [for operation in transactions] visits. *)
Definition json_iter (v : json) : outcome (list json) :=
  match v with
  | JArray items => Return items
  | JObject members => Return (map (fun kv => JString (fst kv)) members)
  | JString s => Return (map (fun c => JString [c]) s)
  | _ => Throw TypeError
  end.

(** The body of the loop of [read_json_file]. *)
Definition json_transaction (operation : json) : outcome transaction :=
  a <~ json_get operation (u "amount") ;;
  amount <~ json_float a ;;
  let transact_type := transact_type_of amount in
  d <~ json_get operation (u "date") ;;
  d <~ json_strip d ;;
  desc <~ json_get operation (u "description") ;;
  desc <~ json_strip desc ;;
  Return (mkTransaction d amount (Some desc) (Some transact_type) None).

Definition read_json_file (filename : str) : IO (list transaction) :=
  try_except
    (read_json <-- io_lift (load_json filename) ;;
     transactions <-- io_lift (json_get read_json (u "transactions")) ;;
     let transactions := match transactions with
                         | Some v => v
                         | None => JArray []
                         end in
     operations <-- io_lift (json_iter transactions) ;;
     io_lift (collect json_transaction operations None []))
    (fun e => match e with
              | FileNotFoundError =>
                  Some (_ <-- print (u "Error: The JSON file could not be found.") ;;
                        io_ret [])
              | JSONDecodeError =>
                  Some (_ <-- print (u "Error: Invalid JSON format in file") ;;
                        io_ret [])
              | _ => None
              end).

Definition import_financial_data (filename : str) : IO (list transaction) :=
  if negb (path_exists filename) then
    _ <-- print (u "Error: File does not exist.") ;;
    io_ret []
  else
    let file_type := lower (splitext_ext filename) in
    if eqb_str file_type (u ".csv") then read_csv_file filename
    else if eqb_str file_type (u ".json") then read_json_file filename
    else
      _ <-- print (u "Error: Unsupported file format") ;;
      io_ret [].

End Readers.

(** What every transaction built by a reader looks like: it has a
    description and no category, and its type says on which side of zero
    its amount lies, zero counting as income. *)
Definition reader_shape (t : transaction) : Prop :=
  description t <> None /\ category t = None /\
  ((txn_type t = Some (u "доход") /\ 0 <= amount t) \/
   (txn_type t = Some (u "расход") /\ amount t < 0)).

(** The transactions a reader labelled [label]. *)
Definition has_type (label : str) (t : transaction) : bool :=
  match txn_type t with
  | Some l => eqb_str l label
  | None => false
  end.

(* ================================================================== *)
(** ** Instances for running the readers *)

Module LibIO.

Definition is_space (c : N) : bool :=
  ((c =? 32) || ((9 <=? c) && (c <=? 13)))%N.

Fixpoint lstrip (s : str) : str :=
  match s with
  | [] => []
  | c :: s' => if is_space c then lstrip s' else s
  end.

(** [str.strip] for ASCII white space. *)
Definition strip (s : str) : str := rev (lstrip (rev (lstrip s))).

Fixpoint split_dot (s : str) : str * option str :=
  match s with
  | [] => ([], None)
  | c :: s' =>
      if (c =? 46)%N then ([], Some s')
      else let (a, b) := split_dot s' in (c :: a, b)
  end.

Definition unsigned (s : str) : option Q :=
  let (int_part, frac) := split_dot s in
  match int_part with
  | [] => None
  | _ :: _ =>
      match Lib.number 0 int_part, frac with
      | Some i, None => Some (i # 1)
      | Some i, Some f =>
          match Lib.number 0 f with
          | Some n =>
              let scale := Pos.pow 10 (Pos.of_nat (List.length f)) in
              match f with
              | [] => Some (i # 1)
              | _ :: _ => Some ((i * Z.pos scale + n) # scale)
              end
          | None => None
          end
      | None, _ => None
      end
  end.

(** [float] of a decimal numeral: an optional sign, digits, and an optional
    fraction.  Python's [float] accepts more spellings (exponents, white
    space, "inf"); the instance rejects them. *)
Definition float_of_str (s : str) : option Q :=
  match s with
  | 45%N :: s' => option_map Qopp (unsigned s')
  | 43%N :: s' => unsigned s'
  | _ => unsigned s
  end.

(** A small file system: one CSV file and one JSON file. *)
Definition money_csv : csv_file :=
  mkCsv [ [(u "date", Some (u " 2024-01-05 ")); (u "amount", Some (u "1000"));
           (u "description", Some (u "Зарплата"))];
          [(u "date", Some (u "2024-01-10")); (u "amount", Some (u "-50.5"));
           (u "description", Some (u "кафе обед"))] ]
        None.

Definition transactions_json : json :=
  JObject [(u "transactions",
            JArray [ JObject [(u "date", JString (u "2024-02-01"));
                              (u "amount", JNumber (-200));
                              (u "description", JString (u "такси поездка"))];
                     JObject [(u "date", JString (u "2024-02-03"));
                              (u "description", JString (u "возврат"))] ])].

Definition open_csv (filename : str) : outcome csv_file :=
  if eqb_str filename (u "money.csv") then Return money_csv
  else if eqb_str filename (u "broken.csv") then
    Return (mkCsv [ [(u "date", Some (u "2024-01-05")); (u "amount", Some (u "12"))];
                    [(u "date", Some (u "2024-01-06")); (u "amount", Some (u "abc"))] ]
                  None)
  else Throw FileNotFoundError.

Definition load_json (filename : str) : outcome json :=
  if eqb_str filename (u "transactions.json") then Return transactions_json
  else if eqb_str filename (u "broken.json") then Throw JSONDecodeError
  else Throw FileNotFoundError.

Definition path_exists (filename : str) : bool :=
  eqb_str filename (u "money.csv") || eqb_str filename (u "broken.csv")
  || eqb_str filename (u "transactions.json") || eqb_str filename (u "broken.json")
  || eqb_str filename (u "notes.txt").

(** [os.path.splitext(_)[1]] for a file name without directories: the
    text from the last dot on, if the dot is not the first character. *)
Fixpoint last_dot (s : str) : option str :=
  match s with
  | [] => None
  | c :: s' =>
      match last_dot s' with
      | Some e => Some e
      | None => if (c =? 46)%N then Some s else None
      end
  end.

Definition splitext_ext (filename : str) : str :=
  match filename with
  | [] => []
  | c :: rest => match last_dot rest with Some e => e | None => [] end
  end.

Definition read_csv := read_csv_file strip float_of_str open_csv.
Definition read_json := read_json_file strip float_of_str load_json.
Definition import :=
  import_financial_data Lib.lower strip float_of_str open_csv load_json
                        path_exists splitext_ext.

End LibIO.
(* ================================================================== *)
(** ** Strings and dictionaries: basic facts *)

Lemma eqb_str_eq (a b : str) : eqb_str a b = true <-> a = b.
Proof.
  revert b; induction a as [|x a IH]; intros [|y b]; simpl; split; intro H;
    try reflexivity; try discriminate.
  - apply andb_true_iff in H as [Hx Hr].
    apply N.eqb_eq in Hx. apply IH in Hr. now subst.
  - injection H as -> ->. now rewrite N.eqb_refl, (proj2 (IH b) eq_refl).
Qed.

Lemma eqb_str_refl (a : str) : eqb_str a a = true.
Proof. now apply eqb_str_eq. Qed.

Lemma eqb_str_neq (a b : str) : eqb_str a b = false <-> a <> b.
Proof.
  split; intro H.
  - intros ->. now rewrite eqb_str_refl in H.
  - destruct (eqb_str a b) eqn:E; [|reflexivity].
    now apply eqb_str_eq in E.
Qed.

Lemma eqb_str_sym (a b : str) : eqb_str a b = eqb_str b a.
Proof.
  destruct (eqb_str a b) eqn:E.
  - apply eqb_str_eq in E; subst. now rewrite eqb_str_refl.
  - symmetry. apply eqb_str_neq. apply eqb_str_neq in E. congruence.
Qed.

Section DictFacts.
Variable V : Type.
Implicit Types (d : dict V) (k : str) (v : V).

Lemma dict_get_set_same d k v : dict_get (dict_set d k v) k = Some v.
Proof.
  induction d as [|[k' v'] d IH]; simpl.
  - now rewrite eqb_str_refl.
  - destruct (eqb_str k k') eqn:E; simpl; rewrite E; auto.
Qed.

Lemma dict_get_set_other d k k' v :
  k <> k' -> dict_get (dict_set d k v) k' = dict_get d k'.
Proof.
  intro Hne. induction d as [|[k0 v0] d IH]; simpl.
  - now rewrite (proj2 (eqb_str_neq k' k)) by congruence.
  - destruct (eqb_str k k0) eqn:E; simpl.
    + apply eqb_str_eq in E; subst k0.
      now rewrite (proj2 (eqb_str_neq k' k)) by congruence.
    + now rewrite IH.
Qed.

Lemma dict_set_set d k v v' : dict_set (dict_set d k v) k v' = dict_set d k v'.
Proof.
  induction d as [|[k0 v0] d IH]; simpl.
  - now rewrite eqb_str_refl.
  - destruct (eqb_str k k0) eqn:E; simpl; rewrite E; [reflexivity|].
    now rewrite IH.
Qed.

Lemma dict_keys_set d k v :
  dict_keys (dict_set d k v) =
  if dict_mem d k then dict_keys d else dict_keys d ++ [k].
Proof.
  unfold dict_mem.
  induction d as [|[k0 v0] d IH]; simpl; [reflexivity|].
  destruct (eqb_str k k0) eqn:E; simpl; [reflexivity|].
  rewrite IH. now destruct (dict_get d k).
Qed.

Lemma dict_get_in_keys d k :
  In k (dict_keys d) <-> dict_get d k <> None.
Proof.
  induction d as [|[k0 v0] d IH]; simpl.
  - tauto.
  - destruct (eqb_str k k0) eqn:E.
    + apply eqb_str_eq in E. subst. split; [discriminate|auto].
    + apply eqb_str_neq in E. rewrite <- IH. split; [|tauto].
      intros [H|H]; [congruence|assumption].
Qed.

Lemma dict_get_in d k v : dict_get d k = Some v -> In (k, v) d.
Proof.
  induction d as [|[k0 v0] d IH]; simpl; [discriminate|].
  destruct (eqb_str k k0) eqn:E.
  - apply eqb_str_eq in E. subst. intros [= ->]. now left.
  - auto.
Qed.

Lemma dict_in_get d k v :
  NoDup (dict_keys d) -> In (k, v) d -> dict_get d k = Some v.
Proof.
  induction d as [|[k0 v0] d IH]; simpl; [tauto|].
  intros Hnd [H|H].
  - injection H as -> ->. now rewrite eqb_str_refl.
  - inversion Hnd as [|? ? Hnotin Hnd']; subst.
    destruct (eqb_str k k0) eqn:E.
    + apply eqb_str_eq in E. subst. exfalso. apply Hnotin.
      change (In k0 (map fst d)). apply in_map_iff. now exists (k0, v).
    + auto.
Qed.

Lemma dict_keys_set_NoDup d k v :
  NoDup (dict_keys d) -> NoDup (dict_keys (dict_set d k v)).
Proof.
  intro Hnd. rewrite dict_keys_set. unfold dict_mem.
  destruct (dict_get d k) eqn:E; [assumption|].
  apply NoDup_app; [assumption|constructor; [simpl; tauto|constructor]|].
  intros x Hx [<-|[]]. apply dict_get_in_keys in Hx. congruence.
Qed.
End DictFacts.

(* ================================================================== *)
(** ** Loops *)

Lemma for_each_readonly {T A} (body : A -> M T A) (step : A -> T -> result A) :
  (forall a t, body a t = (step a t, t)) ->
  forall ts a, for_each body a ts = (fold_result step ts a, ts).
Proof.
  intros Hbody. induction ts as [|t ts IH]; intro a; simpl; [reflexivity|].
  rewrite Hbody. destruct (step a t) as [a'|e]; [|reflexivity].
  now rewrite IH.
Qed.

Lemma for_each_pure {T A} (body : A -> M T A) (step : A -> T -> A) :
  (forall a t, body a t = (OK (step a t), t)) ->
  forall ts a, for_each body a ts = (OK (fold_left step ts a), ts).
Proof.
  intros Hbody. induction ts as [|t ts IH]; intro a; simpl; [reflexivity|].
  now rewrite Hbody, IH.
Qed.

Lemma for_each_write {T} (body : unit -> M T unit) (f : T -> T) :
  (forall t, body tt t = (OK tt, f t)) ->
  forall ts, for_each body tt ts = (OK tt, map f ts).
Proof.
  intros Hbody. induction ts as [|t ts IH]; simpl; [reflexivity|].
  now rewrite Hbody, IH.
Qed.

Lemma for_items_pure {S V} (f : str -> V -> M S V) (g : str -> V -> V) :
  (forall k v s, f k v s = (OK (g k v), s)) ->
  forall (d : dict V) s,
    for_items f d s = (OK (map (fun kv => (fst kv, g (fst kv) (snd kv))) d), s).
Proof.
  intros Hf. induction d as [|[k v] d IH]; intro s; simpl; [reflexivity|].
  unfold bind. now rewrite Hf, IH.
Qed.

(* ================================================================== *)
(** ** Sums of amounts *)

Lemma fold_left_Qplus_acc (l : list Q) (a : Q) :
  fold_left Qplus l a == a + py_sum l.
Proof.
  unfold py_sum. revert a. induction l as [|x l IH]; intro a; simpl.
  - ring.
  - rewrite IH, (IH (0 + x)). ring.
Qed.

Lemma py_sum_cons (x : Q) (l : list Q) : py_sum (x :: l) == x + py_sum l.
Proof.
  unfold py_sum at 1. simpl. rewrite fold_left_Qplus_acc. ring.
Qed.

Lemma Qltb_lt (x y : Q) : Qltb x y = true <-> x < y.
Proof.
  unfold Qltb. rewrite negb_true_iff. split; intro H.
  - apply Qnot_le_lt. intro Hle. apply Qle_bool_iff in Hle. congruence.
  - destruct (Qle_bool y x) eqn:E; [|reflexivity].
    apply Qle_bool_iff in E. exfalso. eapply Qlt_not_le; eassumption.
Qed.

Lemma Qltb_ge (x y : Q) : Qltb x y = false <-> y <= x.
Proof.
  unfold Qltb. rewrite negb_false_iff. apply Qle_bool_iff.
Qed.

Lemma sum_amounts_if_spec (cond : Q -> bool) (ts : list transaction) :
  sum_amounts_if cond ts =
  (OK (py_sum (map amount (filter (fun t => cond (amount t)) ts))), ts).
Proof.
  unfold sum_amounts_if.
  rewrite (for_each_pure _ (fun acc t => if cond (amount t) then acc + amount t else acc)).
  - f_equal. f_equal. unfold py_sum. generalize 0 as a.
    induction ts as [|t ts IH]; intro a; simpl; [reflexivity|].
    destruct (cond (amount t)); simpl; apply IH.
  - intros a t. unfold bind, getitem_amount, ret.
    now destruct (cond (amount t)).
Qed.

(** The sum of the negative amounts is not positive. *)
Lemma py_sum_expenses_nonpos (ts : list transaction) :
  py_sum (map amount (filter is_expense ts)) <= 0.
Proof.
  induction ts as [|t ts IH]; simpl.
  - unfold py_sum; simpl. apply Qle_refl.
  - destruct (is_expense t) eqn:E; [|assumption].
    simpl. rewrite py_sum_cons. apply Qltb_lt in E. lra.
Qed.

(** Zero amounts do not change a sum: the test [> 0] of the code and the
    test [>= 0] select sums that are equal as numbers. *)
Lemma py_sum_income_ge (ts : list transaction) :
  py_sum (map amount (filter is_income ts)) ==
  py_sum (map amount (filter (fun t => Qle_bool 0 (amount t)) ts)).
Proof.
  induction ts as [|t ts IH]; simpl; [reflexivity|].
  unfold is_income at 1.
  destruct (Qltb 0 (amount t)) eqn:E1; destruct (Qle_bool 0 (amount t)) eqn:E2; simpl.
  - rewrite !py_sum_cons, IH. reflexivity.
  - apply Qltb_lt in E1. apply Qlt_le_weak, Qle_bool_iff in E1. congruence.
  - apply Qltb_ge in E1. apply Qle_bool_iff in E2.
    rewrite py_sum_cons, IH.
    assert (amount t == 0) as -> by (apply Qle_antisym; assumption). ring.
  - exact IH.
Qed.

Lemma py_sum_no_expense (ts : list transaction) :
  (forall t, In t ts -> 0 <= amount t) ->
  map amount (filter is_expense ts) = [].
Proof.
  induction ts as [|t ts IH]; simpl; intro H; [reflexivity|].
  assert (is_expense t = false) as ->
    by (apply Qltb_ge; apply H; now left).
  apply IH. intros t' Ht'. apply H. now right.
Qed.

Lemma calculate_basic_stats_spec (ts : list transaction) :
  calculate_basic_stats ts =
  (OK (mkBasic (py_sum (map amount (filter is_income ts)))
               (py_sum (map amount (filter is_expense ts)))
               (py_sum (map amount (filter is_income ts))
                + py_sum (map amount (filter is_expense ts)))
               (Z.of_nat (List.length ts))),
   ts).
Proof.
  unfold calculate_basic_stats, bind. now rewrite !sum_amounts_if_spec.
Qed.

(* ================================================================== *)
(** ** The categoriser *)

Section CategorizerFacts.
Variable lower : str -> str.

Lemma matched_categories_filter (d : str) (cats : dict (list str))
    (prio acc : list str) :
  fold_left
    (fun matched category =>
       let keywords := match dict_get cats category with
                       | Some ks => ks
                       | None => []
                       end in
       if existsb (fun keyword => contains keyword (lower d)) keywords
       then matched ++ [category]
       else matched)
    prio acc
  = acc ++ filter (matches lower cats d) prio.
Proof.
  revert acc. induction prio as [|c prio IH]; intro acc; simpl.
  - now rewrite app_nil_r.
  - rewrite IH. unfold matches at 2, keywords_of.
    destruct (existsb _ _); [|reflexivity].
    now rewrite <- app_assoc.
Qed.

Lemma categorize_filter (d : str) (cats : dict (list str)) (prio : list str) :
  categorize_transaction_with_multiple lower d cats prio =
  match filter (matches lower cats d) prio with
  | c :: _ => c
  | [] => fallback
  end.
Proof.
  unfold categorize_transaction_with_multiple.
  now rewrite matched_categories_filter.
Qed.

Lemma categorize_range (d : str) (cats : dict (list str)) (prio : list str) :
  In (categorize_transaction_with_multiple lower d cats prio) (prio ++ [fallback]).
Proof.
  rewrite categorize_filter.
  destruct (filter (matches lower cats d) prio) as [|c r] eqn:E.
  - apply in_or_app. right. now left.
  - apply in_or_app. left.
    assert (In c (filter (matches lower cats d) prio)) as H
        by (rewrite E; now left).
    now apply filter_In in H.
Qed.

Lemma categorize_all_spec (ts : list transaction) :
  categorize_all_transactions lower ts =
  (OK (map (categorized lower) ts), map (categorized lower) ts).
Proof.
  unfold categorize_all_transactions, bind.
  now rewrite (for_each_write _ (categorized lower)).
Qed.

Lemma categorized_idem (t : transaction) :
  categorized lower (categorized lower t) = categorized lower t.
Proof. reflexivity. Qed.
End CategorizerFacts.

Lemma filter_first {A} (f : A -> bool) (l : list A) (x : A) (r : list A) :
  filter f l = x :: r ->
  exists before after,
    l = before ++ x :: after /\ f x = true /\
    (forall y, In y before -> f y = false).
Proof.
  induction l as [|a l IH]; simpl; [discriminate|].
  destruct (f a) eqn:E.
  - intros [= -> <-]. exists [], l. repeat split; [assumption|]. intros y [].
  - intro H. destruct (IH H) as (b & af & -> & Hx & Hb).
    exists (a :: b), af. repeat split; [assumption|].
    intros y [<-|Hy]; auto.
Qed.

Lemma filter_none {A} (f : A -> bool) (l : list A) :
  (forall x, In x l -> f x = false) -> filter f l = [].
Proof.
  induction l as [|a l IH]; simpl; intro H; [reflexivity|].
  rewrite (H a) by now left. apply IH. intros x Hx. apply H. now right.
Qed.

Lemma configured_names_nonempty (c : str) :
  In c (categories_priority ++ [fallback]) -> c <> [].
Proof.
  intro H.
  assert (forallb (fun c => negb (eqb_str c [])) (categories_priority ++ [fallback])
          = true) as Hall by (vm_compute; reflexivity).
  rewrite forallb_forall in Hall. specialize (Hall c H).
  apply negb_true_iff, eqb_str_neq in Hall. exact Hall.
Qed.

(* ================================================================== *)
(** ** Grouping by category *)

Lemma cat_body_spec (d : dict category_entry) (t : transaction) :
  (category <- get_category no_category ;;
   let category_totals :=
     if dict_mem d category then d
     else dict_set d category (mkCat 0 0 None) in
   data <- getitem category_totals category ;;
   a <- getitem_amount ;;
   let category_totals :=
     dict_set category_totals category
              (mkCat (cat_sum data + a) (cat_count data) (cat_percent data)) in
   data <- getitem category_totals category ;;
   ret (dict_set category_totals category
                 (mkCat (cat_sum data) (cat_count data + 1) (cat_percent data)))) t
  = (OK (cat_step d t), t).
Proof.
  unfold bind, get_category, getitem_amount, getitem, ret, cat_step, dict_mem.
  fold (bucket_key t).
  destruct (dict_get d (bucket_key t)) as [e|] eqn:E; simpl.
  - rewrite E. simpl. rewrite dict_get_set_same. simpl.
    now rewrite dict_set_set.
  - rewrite dict_get_set_same. simpl. rewrite dict_get_set_same. simpl.
    now rewrite !dict_set_set.
Qed.

Lemma Qeq_bool_opp (x : Q) : Qeq_bool (- x) 0 = Qeq_bool x 0.
Proof.
  destruct (Qeq_bool x 0) eqn:E.
  - apply Qeq_bool_iff in E. apply Qeq_bool_iff. rewrite E. reflexivity.
  - destruct (Qeq_bool (- x) 0) eqn:E'; [|reflexivity].
    apply Qeq_bool_iff in E'.
    assert (x == 0) as H by (rewrite <- (Qopp_involutive x), E'; reflexivity).
    apply Qeq_bool_iff in H. congruence.
Qed.

Lemma percent_body_spec {S} (total : Q) (data : category_entry) (s : S) :
  (percent <- (if negb (Qeq_bool total 0)
               then q <- truediv (- cat_sum data) (- total) ;;
                    ret (q * 100)
               else ret 0) ;;
   ret (mkCat (cat_sum data) (cat_count data) (Some percent))) s
  = (OK (mkCat (cat_sum data) (cat_count data)
               (Some (percent_of total (cat_sum data)))), s).
Proof.
  unfold bind, truediv, percent_of, ret, raise.
  destruct (Qeq_bool total 0) eqn:E; simpl; [reflexivity|].
  now rewrite Qeq_bool_opp, E.
Qed.

Lemma calculate_by_category_spec (ts : list transaction) :
  calculate_by_category ts =
  (OK (map (fun kv =>
              (fst kv,
               mkCat (cat_sum (snd kv)) (cat_count (snd kv))
                     (Some (percent_of (total_expenses_of ts) (cat_sum (snd kv))))))
           (fold_left cat_step ts [])),
   ts).
Proof.
  unfold calculate_by_category, bind.
  rewrite sum_amounts_if_spec.
  rewrite (for_each_pure _ cat_step) by (intros a t; exact (cat_body_spec a t)).
  rewrite (for_items_pure _
    (fun (_ : str) data =>
       mkCat (cat_sum data) (cat_count data)
             (Some (percent_of (total_expenses_of ts) (cat_sum data)))))
    by (intros k v s; exact (percent_body_spec _ v s)).
  reflexivity.
Qed.

(** The entry of bucket [k] after the grouping loop is obtained from the
    transactions filed under [k] alone. *)
Lemma cat_step_get (ts : list transaction) (d : dict category_entry) (k : str) :
  dict_get (fold_left cat_step ts d) k =
  fold_left (fun o t => Some (bump_entry o (amount t))) (in_bucket k ts)
            (dict_get d k).
Proof.
  revert d. induction ts as [|t ts IH]; intro d; simpl; [reflexivity|].
  rewrite IH. unfold cat_step at 1.
  destruct (eqb_str (bucket_key t) k) eqn:E; simpl.
  - apply eqb_str_eq in E. subst k. now rewrite dict_get_set_same.
  - apply eqb_str_neq in E. now rewrite dict_get_set_other.
Qed.

Lemma bump_fold_some (l : list transaction) (e : category_entry) :
  fold_left (fun o t => Some (bump_entry o (amount t))) l (Some e) =
  Some (mkCat (fold_left Qplus (map amount l) (cat_sum e))
              (cat_count e + Z.of_nat (List.length l))
              (cat_percent e)).
Proof.
  revert e. induction l as [|t l IH]; intro e.
  - simpl. rewrite Z.add_0_r. now destruct e.
  - cbn [fold_left map List.length]. unfold bump_entry at 2. rewrite IH. cbn [cat_sum cat_count cat_percent].
    do 2 f_equal. lia.
Qed.

Lemma bump_fold_none (l : list transaction) :
  fold_left (fun o t => Some (bump_entry o (amount t))) l None =
  match l with
  | [] => None
  | _ :: _ => Some (mkCat (py_sum (map amount l)) (Z.of_nat (List.length l)) None)
  end.
Proof.
  destruct l as [|t l]; [reflexivity|].
  cbn [fold_left]. unfold bump_entry at 2. rewrite bump_fold_some.
  cbn [cat_sum cat_count cat_percent map List.length]. unfold py_sum. cbn [fold_left].
  do 2 f_equal. lia.
Qed.

Lemma cat_step_keys_NoDup (ts : list transaction) (d : dict category_entry) :
  NoDup (dict_keys d) -> NoDup (dict_keys (fold_left cat_step ts d)).
Proof.
  revert d. induction ts as [|t ts IH]; intros d H; simpl; [assumption|].
  apply IH. now apply dict_keys_set_NoDup.
Qed.

Lemma total_count_set (d : dict category_entry) (k : str) (e : category_entry) :
  total_count (dict_set d k e) =
  (total_count d
   - match dict_get d k with Some e0 => cat_count e0 | None => 0 end
   + cat_count e)%Z.
Proof.
  induction d as [|[k0 e0] d IH]; simpl.
  - lia.
  - destruct (eqb_str k k0); simpl; [lia|]. rewrite IH. lia.
Qed.

Lemma total_count_fold (ts : list transaction) (d : dict category_entry) :
  total_count (fold_left cat_step ts d) =
  (total_count d + Z.of_nat (List.length ts))%Z.
Proof.
  revert d. induction ts as [|t ts IH]; intro d.
  - simpl. lia.
  - cbn [fold_left List.length]. rewrite IH. unfold cat_step.
    rewrite total_count_set.
    destruct (dict_get d (bucket_key t)); simpl; lia.
Qed.

Lemma total_count_map (f : category_entry -> category_entry)
    (d : dict category_entry) :
  (forall e, cat_count (f e) = cat_count e) ->
  total_count (map (fun kv => (fst kv, f (snd kv))) d) = total_count d.
Proof.
  intro Hf. induction d as [|[k e] d IH]; simpl; [reflexivity|].
  now rewrite Hf, IH.
Qed.

(* ================================================================== *)
(** ** Grouping by month *)

Lemma dict_set_get_id {V} (d : dict V) (k : str) (v : V) :
  dict_get d k = Some v -> dict_set d k v = d.
Proof.
  induction d as [|[k0 v0] d IH]; simpl; [discriminate|].
  destruct (eqb_str k k0) eqn:E.
  - now intros [= ->].
  - intro H. now rewrite IH.
Qed.

Lemma income_not_expense (a : Q) : Qltb 0 a = true -> Qltb a 0 = false.
Proof.
  intro H. apply Qltb_lt in H. apply Qltb_ge. now apply Qlt_le_weak.
Qed.

Section TimeFacts.
Variable datetime : Type.
Variable strptime : str -> option datetime.
Variable strftime : datetime -> str.

Local Abbreviation mkey := (month_key strptime strftime).
Local Abbreviation inm := (in_month strptime strftime).
Local Abbreviation tstep := (time_step strptime strftime).
Local Abbreviation mstep := (month_step strptime strftime).

Lemma time_body_spec (d : dict month_entry) (t : transaction) :
  (dt <- getitem_date ;;
   date_obj <- match strptime dt with
               | Some o => ret o
               | None => raise (ValueError dt)
               end ;;
   let month_key := strftime date_obj in
   let monthly_stats :=
     if dict_mem d month_key then d
     else dict_set d month_key (mkMonth 0 0 [] None) in
   a <- getitem_amount ;;
   if Qltb 0 a then
     data <- getitem monthly_stats month_key ;;
     x <- getitem_amount ;;
     ret (dict_set monthly_stats month_key
                   (mkMonth (income data + x) (expenses data)
                            (month_categories data) (top_categories data)))
   else
     a <- getitem_amount ;;
     if Qltb a 0 then
       data <- getitem monthly_stats month_key ;;
       x <- getitem_amount ;;
       let monthly_stats :=
         dict_set monthly_stats month_key
                  (mkMonth (income data) (expenses data + x)
                           (month_categories data) (top_categories data)) in
       data <- getitem monthly_stats month_key ;;
       c <- get_category no_category ;;
       ret (dict_set monthly_stats month_key
                     (mkMonth (income data) (expenses data)
                              (month_categories data ++ [c])
                              (top_categories data)))
     else ret monthly_stats) t
  = (tstep d t, t).
Proof.
  unfold bind, getitem_date, getitem_amount, get_category, getitem, ret, raise,
    time_step, month_step_at, bump_month, dict_mem.
  fold (bucket_key t).
  destruct (strptime (date t)) as [o|]; [|reflexivity].
  set (k := strftime o).
  destruct (dict_get d k) as [e|] eqn:E; simpl.
  - destruct (Qltb 0 (amount t)); simpl.
    + now rewrite E.
    + destruct (Qltb (amount t) 0); simpl.
      * rewrite E. simpl. rewrite dict_get_set_same. simpl.
        now rewrite dict_set_set.
      * now rewrite dict_set_get_id.
  - destruct (Qltb 0 (amount t)); simpl.
    + rewrite dict_get_set_same. simpl. now rewrite dict_set_set.
    + destruct (Qltb (amount t) 0); simpl; [|reflexivity].
      rewrite dict_get_set_same. simpl. rewrite dict_get_set_same. simpl.
      now rewrite !dict_set_set.
Qed.

Lemma analyze_by_time_spec (ts : list transaction) :
  analyze_by_time strptime strftime ts =
  (match fold_result tstep ts [] with
   | OK d => OK (map (fun kv => (fst kv, finish_month (snd kv))) d)
   | Raise e => Raise e
   end, ts).
Proof.
  unfold analyze_by_time, bind.
  rewrite (for_each_readonly _ tstep)
    by (intros a t; exact (time_body_spec a t)).
  destruct (fold_result tstep ts []) as [d|e]; [|reflexivity].
  now rewrite (for_items_pure _ (fun (_ : str) data => finish_month data)).
Qed.

(** The loop succeeds exactly when every date parses. *)
Lemma time_loop_ok (ts : list transaction) (d : dict month_entry) :
  (forall t, In t ts -> strptime (date t) <> None) ->
  fold_result tstep ts d = OK (fold_left mstep ts d).
Proof.
  revert d. induction ts as [|t ts IH]; intros d H; simpl; [reflexivity|].
  unfold time_step at 1. cbn [fold_left]. unfold month_step at 2, month_key.
  destruct (strptime (date t)) as [o|] eqn:E.
  - apply IH. intros t' Ht'. apply H. now right.
  - exfalso. apply (H t); [now left|assumption].
Qed.

Lemma time_loop_fail (before after : list transaction) (t : transaction)
    (d : dict month_entry) :
  (forall t', In t' before -> strptime (date t') <> None) ->
  strptime (date t) = None ->
  fold_result tstep (before ++ t :: after) d = Raise (ValueError (date t)).
Proof.
  revert d. induction before as [|b before IH]; intros d Hb Ht; simpl.
  - unfold time_step. now rewrite Ht.
  - unfold time_step at 1.
    destruct (strptime (date b)) as [o|] eqn:E.
    + apply IH; [|assumption]. intros t' Ht'. apply Hb. now right.
    + exfalso. apply (Hb b); [now left|assumption].
Qed.

Lemma time_loop_ok_inv (ts : list transaction) (d d' : dict month_entry) :
  fold_result tstep ts d = OK d' ->
  (forall t, In t ts -> strptime (date t) <> None) /\
  d' = fold_left mstep ts d.
Proof.
  revert d. induction ts as [|t ts IH]; intros d H; simpl in *.
  - injection H as <-. split; [intros t []|reflexivity].
  - unfold time_step at 1 in H. cbn [fold_left]. unfold month_step at 2, month_key.
    destruct (strptime (date t)) as [o|] eqn:E; [|discriminate].
    destruct (IH _ H) as [Hall ->]. split; [|reflexivity].
    intros t' [<-|Ht']; [congruence|auto].
Qed.

(** A date that does not parse exists exactly when there is a first one. *)
Lemma first_unparsed (ts : list transaction) :
  (exists t, In t ts /\ strptime (date t) = None) ->
  exists before t after,
    ts = before ++ t :: after /\
    (forall t', In t' before -> strptime (date t') <> None) /\
    strptime (date t) = None.
Proof.
  induction ts as [|a ts IH]; intros (t & Hin & Ht); [destruct Hin|].
  destruct (strptime (date a)) as [o|] eqn:E.
  - destruct Hin as [<-|Hin]; [congruence|].
    destruct IH as (b & t0 & af & -> & Hb & Ht0); [now exists t|].
    exists (a :: b), t0, af. repeat split; [|assumption].
    intros t' [<-|Ht']; [congruence|auto].
  - exists [], a, ts. repeat split; [intros t' []|assumption].
Qed.

(** The entry of month [m] after the loop is obtained from the transactions
    of month [m] alone. *)
Lemma month_step_get (ts : list transaction) (d : dict month_entry) (m : str) :
  dict_get (fold_left mstep ts d) m =
  fold_left (fun o t => Some (bump_month o t)) (inm m ts) (dict_get d m).
Proof.
  revert d. induction ts as [|t ts IH]; intro d; [reflexivity|].
  cbn [fold_left]. rewrite IH. unfold in_month. cbn [filter].
  unfold month_step.
  destruct (mkey t) as [k|]; [|reflexivity].
  unfold month_step_at.
  destruct (eqb_str k m) eqn:E; cbn [fold_left].
  - apply eqb_str_eq in E. subst k. now rewrite dict_get_set_same.
  - apply eqb_str_neq in E. now rewrite dict_get_set_other.
Qed.

Lemma month_step_keys_NoDup (ts : list transaction) (d : dict month_entry) :
  NoDup (dict_keys d) -> NoDup (dict_keys (fold_left mstep ts d)).
Proof.
  revert d. induction ts as [|t ts IH]; intros d H; simpl; [assumption|].
  apply IH. unfold month_step. destruct (mkey t); [|assumption].
  now apply dict_keys_set_NoDup.
Qed.

End TimeFacts.

Lemma bump_month_fold_some (l : list transaction) (e : month_entry) :
  fold_left (fun o t => Some (bump_month o t)) l (Some e) =
  Some (mkMonth (fold_left Qplus (map amount (filter is_income l)) (income e))
                (fold_left Qplus (map amount (filter is_expense l)) (expenses e))
                (month_categories e ++ map bucket_key (filter is_expense l))
                (top_categories e)).
Proof.
  revert e. induction l as [|t l IH]; intro e.
  - simpl. rewrite app_nil_r. now destruct e.
  - cbn [fold_left filter].
    assert (is_income t = Qltb 0 (amount t)) as -> by reflexivity.
    assert (is_expense t = Qltb (amount t) 0) as -> by reflexivity.
    unfold bump_month at 2.
    destruct (Qltb 0 (amount t)) eqn:E1.
    + rewrite (income_not_expense _ E1), IH. reflexivity.
    + destruct (Qltb (amount t) 0) eqn:E2; rewrite IH; simpl;
        [now rewrite <- app_assoc | reflexivity].
Qed.

Lemma bump_month_fold_none (l : list transaction) :
  fold_left (fun o t => Some (bump_month o t)) l None =
  match l with
  | [] => None
  | _ :: _ =>
      Some (mkMonth (py_sum (map amount (filter is_income l)))
                    (py_sum (map amount (filter is_expense l)))
                    (map bucket_key (filter is_expense l))
                    None)
  end.
Proof.
  destruct l as [|t l]; [reflexivity|].
  change (fold_left (fun o t => Some (bump_month o t)) (t :: l) None)
    with (fold_left (fun o t => Some (bump_month o t)) (t :: l)
                    (Some (mkMonth 0 0 [] None))).
  now rewrite bump_month_fold_some.
Qed.

(* ================================================================== *)
(** ** Counter and most_common *)

Lemma occurrences_nonneg (x : str) (l : list str) : (0 <= occurrences x l)%Z.
Proof.
  induction l as [|y l IH]; simpl; [lia|]. destruct (eqb_str x y); lia.
Qed.

Lemma occurrences_pos_in (x : str) (l : list str) :
  (0 < occurrences x l)%Z <-> In x l.
Proof.
  induction l as [|y l IH]; simpl; [lia|].
  pose proof (occurrences_nonneg x l) as Hn.
  destruct (eqb_str x y) eqn:E.
  - apply eqb_str_eq in E. subst. split; [auto|lia].
  - apply eqb_str_neq in E. rewrite Z.add_0_l, IH. split; [auto|].
    intros [H|H]; [congruence|assumption].
Qed.

Lemma Counter_fold (xs : list str) (c : dict Z) :
  fold_left (fun c x =>
               dict_set c x (match dict_get c x with
                             | Some n => (n + 1)%Z
                             | None => 1%Z
                             end)) xs c
  = fold_left count_step xs c.
Proof. reflexivity. Qed.

Lemma count_fold_get (xs : list str) (c : dict Z) (k : str) :
  dict_get (fold_left count_step xs c) k =
  if (occurrences k xs =? 0)%Z then dict_get c k
  else Some (match dict_get c k with Some n => n | None => 0 end
             + occurrences k xs)%Z.
Proof.
  revert c. induction xs as [|x xs IH]; intro c; [reflexivity|].
  cbn [fold_left occurrences]. rewrite IH. unfold count_step.
  pose proof (occurrences_nonneg k xs) as Hn.
  destruct (eqb_str k x) eqn:E.
  - apply eqb_str_eq in E. subst x. rewrite dict_get_set_same.
    destruct (occurrences k xs =? 0)%Z eqn:E0.
    + apply Z.eqb_eq in E0. rewrite E0. simpl.
      destruct (dict_get c k); f_equal; lia.
    + apply Z.eqb_neq in E0.
      destruct (1 + occurrences k xs =? 0)%Z eqn:E1;
        [apply Z.eqb_eq in E1; lia|].
      destruct (dict_get c k); f_equal; lia.
  - apply eqb_str_neq in E.
    rewrite dict_get_set_other by congruence. now rewrite Z.add_0_l.
Qed.

Lemma Counter_get (xs : list str) (k : str) :
  dict_get (Counter xs) k =
  if (occurrences k xs =? 0)%Z then None else Some (occurrences k xs).
Proof.
  unfold Counter. rewrite Counter_fold, count_fold_get. reflexivity.
Qed.

Lemma Counter_keys_in (xs : list str) (k : str) :
  In k (dict_keys (Counter xs)) <-> In k xs.
Proof.
  rewrite dict_get_in_keys, Counter_get, <- occurrences_pos_in.
  pose proof (occurrences_nonneg k xs).
  destruct (occurrences k xs =? 0)%Z eqn:E.
  - apply Z.eqb_eq in E. split; [congruence|lia].
  - apply Z.eqb_neq in E. split; [lia|discriminate].
Qed.

Lemma count_fold_NoDup (xs : list str) (c : dict Z) :
  NoDup (dict_keys c) -> NoDup (dict_keys (fold_left count_step xs c)).
Proof.
  revert c. induction xs as [|x xs IH]; intros c H; simpl; [assumption|].
  apply IH. now apply dict_keys_set_NoDup.
Qed.

Lemma Counter_NoDup (xs : list str) : NoDup (dict_keys (Counter xs)).
Proof.
  unfold Counter. rewrite Counter_fold. apply count_fold_NoDup. constructor.
Qed.

Lemma Counter_in (xs : list str) (k : str) (n : Z) :
  In (k, n) (Counter xs) -> n = occurrences k xs /\ In k xs.
Proof.
  intro H. apply dict_in_get in H; [|apply Counter_NoDup].
  rewrite Counter_get in H.
  destruct (occurrences k xs =? 0)%Z eqn:E; [discriminate|].
  injection H as <-. split; [reflexivity|].
  apply occurrences_pos_in. apply Z.eqb_neq in E.
  pose proof (occurrences_nonneg k xs). lia.
Qed.

Lemma first_index_app_in (x y : str) (l : list str) :
  In x l -> first_index x (l ++ [y]) = first_index x l.
Proof.
  induction l as [|z l IH]; simpl; [tauto|].
  destruct (eqb_str x z) eqn:E; [reflexivity|].
  apply eqb_str_neq in E. intros [H|H]; [congruence|]. now rewrite IH.
Qed.

Lemma first_index_in_lt (x : str) (l : list str) :
  In x l -> (first_index x l < List.length l)%nat.
Proof.
  induction l as [|z l IH]; simpl; [tauto|].
  destruct (eqb_str x z) eqn:E; [lia|].
  apply eqb_str_neq in E. intros [H|H]; [congruence|].
  specialize (IH H). lia.
Qed.

Lemma first_index_app_new (x : str) (l : list str) :
  ~ In x l -> first_index x (l ++ [x]) = List.length l.
Proof.
  induction l as [|z l IH]; simpl; intro H.
  - now rewrite eqb_str_refl.
  - destruct (eqb_str x z) eqn:E.
    + apply eqb_str_eq in E. subst. tauto.
    + rewrite IH; tauto.
Qed.

Lemma StronglySorted_in_impl {A} (R R' : A -> A -> Prop) (l : list A) :
  (forall a b, In a l -> In b l -> R a b -> R' a b) ->
  StronglySorted R l -> StronglySorted R' l.
Proof.
  induction l as [|x l IH]; intros Himp Hs; [constructor|].
  apply StronglySorted_inv in Hs as [Hs Hall]. constructor.
  - apply IH; [|assumption]. intros a b Ha Hb. apply Himp; now right.
  - rewrite Forall_forall in *. intros y Hy.
    apply Himp; [now left|now right|auto].
Qed.

Lemma StronglySorted_snoc {A} (R : A -> A -> Prop) (l : list A) (x : A) :
  StronglySorted R l -> Forall (fun a => R a x) l ->
  StronglySorted R (l ++ [x]).
Proof.
  induction l as [|y l IH]; intros Hs Hall; simpl.
  - repeat constructor.
  - apply StronglySorted_inv in Hs as [Hs Hy].
    inversion Hall as [|? ? Hyx Hall']; subst. constructor; [auto|].
    apply Forall_app. split; [assumption|]. now constructor.
Qed.

Lemma StronglySorted_app_inv {A} (R : A -> A -> Prop) (l1 l2 : list A) :
  StronglySorted R (l1 ++ l2) ->
  StronglySorted R l1 /\ StronglySorted R l2 /\
  (forall a b, In a l1 -> In b l2 -> R a b).
Proof.
  induction l1 as [|x l1 IH]; simpl; intro Hs.
  - repeat split; [constructor|assumption|intros a b []].
  - apply StronglySorted_inv in Hs as [Hs Hall].
    destruct (IH Hs) as (H1 & H2 & H12).
    apply Forall_app in Hall as [Hall1 Hall2].
    repeat split; [now constructor|assumption|].
    intros a b [<-|Ha] Hb; [|auto].
    rewrite Forall_forall in Hall2. auto.
Qed.

Lemma StronglySorted_map_fst {V} (R : str -> str -> Prop) (d : dict V) :
  StronglySorted R (dict_keys d) ->
  StronglySorted (fun a b => R (fst a) (fst b)) d.
Proof.
  induction d as [|kv d IH]; simpl; intro Hs; [constructor|].
  apply StronglySorted_inv in Hs as [Hs Hall]. constructor; [auto|].
  rewrite Forall_forall in *. intros y Hy. apply Hall.
  apply in_map_iff. now exists y.
Qed.

(** The keys of a counter stand in the order of their first occurrence. *)
Lemma Counter_keys_sorted (xs : list str) :
  StronglySorted (fun a b => (first_index a xs < first_index b xs)%nat)
                 (dict_keys (Counter xs)).
Proof.
  induction xs as [|x xs IH] using rev_ind; [constructor|].
  assert (Counter (xs ++ [x]) = count_step (Counter xs) x) as ->
      by (unfold Counter; now rewrite fold_left_app).
  unfold count_step. rewrite dict_keys_set. unfold dict_mem.
  destruct (dict_get (Counter xs) x) as [n|] eqn:E.
  - eapply StronglySorted_in_impl; [|exact IH].
    intros a b Ha Hb.
    apply (proj1 (Counter_keys_in _ _)) in Ha.
    apply (proj1 (Counter_keys_in _ _)) in Hb. cbv beta.
    rewrite (first_index_app_in a x xs Ha), (first_index_app_in b x xs Hb).
    exact (fun H => H).
  - assert (~ In x xs) as Hx.
    { rewrite <- Counter_keys_in, dict_get_in_keys. congruence. }
    apply StronglySorted_snoc.
    + eapply StronglySorted_in_impl; [|exact IH].
      intros a b Ha Hb.
    apply (proj1 (Counter_keys_in _ _)) in Ha.
    apply (proj1 (Counter_keys_in _ _)) in Hb. cbv beta.
      rewrite (first_index_app_in a x xs Ha), (first_index_app_in b x xs Hb).
      exact (fun H => H).
    + apply Forall_forall. intros a Ha. apply (proj1 (Counter_keys_in _ _)) in Ha.
      rewrite first_index_app_in, first_index_app_new by assumption.
      now apply first_index_in_lt.
Qed.

Lemma insert_desc_in (x z : str * Z) (l : list (str * Z)) :
  In z (insert_desc x l) <-> z = x \/ In z l.
Proof.
  induction l as [|y l IH]; simpl.
  - split; intros [H|H]; auto.
  - destruct (snd x <? snd y)%Z; simpl; [rewrite IH|]; intuition auto.
Qed.

Lemma sorted_desc_in (z : str * Z) (l : list (str * Z)) :
  In z (sorted_desc l) <-> In z l.
Proof.
  induction l as [|x l IH]; simpl; [tauto|].
  rewrite insert_desc_in, IH. intuition auto.
Qed.

Section StableSort.
Variable P : str * Z -> str * Z -> Prop.

Local Abbreviation desc_stable := (desc_stable P).

Lemma insert_desc_sorted (x : str * Z) (l : list (str * Z)) :
  StronglySorted desc_stable l -> Forall (P x) l ->
  StronglySorted desc_stable (insert_desc x l).
Proof.
  induction l as [|y l IH]; intros Hs Hp; simpl.
  - repeat constructor.
  - apply StronglySorted_inv in Hs as [Hs Hy].
    inversion Hp as [|? ? Hxy Hp']; subst.
    destruct (snd x <? snd y)%Z eqn:E.
    + apply Z.ltb_lt in E. constructor; [auto|].
      apply Forall_forall. intros z Hz. apply insert_desc_in in Hz as [->|Hz].
      * now left.
      * rewrite Forall_forall in Hy. auto.
    + apply Z.ltb_ge in E. constructor; [now constructor|].
      constructor.
      * destruct (Z.eq_dec (snd y) (snd x)) as [Heq|Hne];
          [right; auto | left; lia].
      * rewrite Forall_forall in *. intros z Hz.
        destruct (Hy z Hz) as [Hlt|[Heq Hyz]].
        -- left. lia.
        -- destruct (Z.eq_dec (snd y) (snd x)) as [Heq'|Hne].
           ++ right. split; [congruence|auto].
           ++ left. lia.
Qed.

Lemma sorted_desc_sorted (l : list (str * Z)) :
  StronglySorted P l -> StronglySorted desc_stable (sorted_desc l).
Proof.
  induction l as [|x l IH]; intro Hs; simpl; [constructor|].
  apply StronglySorted_inv in Hs as [Hs Hx].
  apply insert_desc_sorted; [auto|].
  rewrite Forall_forall in *. intros z Hz. apply Hx.
  now apply sorted_desc_in.
Qed.
End StableSort.

(** What [Counter(xs).most_common(n)] returns. *)
Lemma most_common_spec (n : nat) (xs : list str) :
  let top := most_common n (Counter xs) in
  (List.length top <= n)%nat /\
  (forall c k, In (c, k) top -> k = occurrences c xs /\ In c xs) /\
  StronglySorted (ranks_before xs) top /\
  (forall c, In c xs -> ~ In c (map fst top) ->
             List.length top = n /\
             forall x, In x top -> ranks_before xs x (c, occurrences c xs)).
Proof.
  intro top. subst top. unfold most_common.
  pose proof (sorted_desc_sorted
                (P := fun a b => (first_index (fst a) xs < first_index (fst b) xs)%nat)
                (@StronglySorted_map_fst Z _ _ (Counter_keys_sorted xs))) as Hs.
  change (StronglySorted (ranks_before xs) (sorted_desc (Counter xs))) in Hs.
  rewrite <- (firstn_skipn n (sorted_desc (Counter xs))) in Hs.
  apply StronglySorted_app_inv in Hs as (Hs1 & _ & Hs12).
  repeat split.
  - apply firstn_le_length.
  - apply (Counter_in xs c k). apply (sorted_desc_in (c, k)).
    rewrite <- (firstn_skipn n). apply in_or_app. now left.
  - apply (Counter_in xs c k). apply (sorted_desc_in (c, k)).
    rewrite <- (firstn_skipn n). apply in_or_app. now left.
  - exact Hs1.
  - destruct (Nat.le_gt_cases n (List.length (sorted_desc (Counter xs))))
      as [Hle|Hgt]; [now apply firstn_length_le|].
    exfalso. apply H0. rewrite firstn_all2 by lia.
    apply in_map_iff. exists (c, occurrences c xs). split; [reflexivity|].
    apply sorted_desc_in. apply dict_get_in. rewrite Counter_get.
    apply occurrences_pos_in in H.
    destruct (occurrences c xs =? 0)%Z eqn:E; [apply Z.eqb_eq in E; lia|reflexivity].
  - intros x Hx. apply Hs12; [assumption|].
    assert (In (c, occurrences c xs) (sorted_desc (Counter xs))) as Hin.
    { apply sorted_desc_in. apply dict_get_in. rewrite Counter_get.
      apply occurrences_pos_in in H.
      destruct (occurrences c xs =? 0)%Z eqn:E;
        [apply Z.eqb_eq in E; lia|reflexivity]. }
    rewrite <- (firstn_skipn n) in Hin. apply in_app_or in Hin as [Hin|Hin];
      [|assumption].
    exfalso. apply H0. apply in_map_iff. now exists (c, occurrences c xs).
Qed.

(* ================================================================== *)
(** ** Substrings and matches *)

Lemma is_prefix_spec (p s : str) :
  is_prefix p s = true <-> exists post, s = p ++ post.
Proof.
  revert s. induction p as [|x p IH]; intros s; simpl.
  - split; [intros _; now exists s|reflexivity].
  - destruct s as [|y s].
    + split; [discriminate|intros [post H]; discriminate].
    + rewrite andb_true_iff, N.eqb_eq, IH. split.
      * intros [-> [post ->]]. now exists post.
      * intros [post [= -> ->]]. split; [reflexivity|now exists post].
Qed.

Lemma contains_spec (kw s : str) : contains kw s = true <-> substring kw s.
Proof.
  unfold substring. induction s as [|a s IH]; simpl.
  - rewrite orb_false_r, is_prefix_spec. split.
    + intros [post H]. now exists [], post.
    + intros (pre & post & H). symmetry in H.
      apply app_eq_nil in H as [-> H]. now exists post.
  - rewrite orb_true_iff, is_prefix_spec, IH. split.
    + intros [[post H]|(pre & post & ->)].
      * now exists [], post.
      * now exists (a :: pre), post.
    + intros ([|b pre] & post & H).
      * left. now exists post.
      * right. injection H as -> ->. now exists pre, post.
Qed.

Lemma matches_spec (lower : str -> str) (cats : dict (list str)) (d c : str) :
  matches lower cats d c = true <-> has_match lower cats d c.
Proof.
  unfold matches, has_match. rewrite existsb_exists.
  split; intros (kw & Hin & H); exists kw; split; try assumption;
    now apply contains_spec.
Qed.

Lemma matches_false (lower : str -> str) (cats : dict (list str)) (d c : str) :
  matches lower cats d c = false <-> ~ has_match lower cats d c.
Proof.
  rewrite <- matches_spec. destruct (matches lower cats d c); split;
    congruence.
Qed.

Lemma existsb_same_elements {A} (f : A -> bool) (l l' : list A) :
  (forall x, In x l <-> In x l') -> existsb f l = existsb f l'.
Proof.
  intro H. apply eq_true_iff_eq. rewrite !existsb_exists.
  split; intros (x & Hin & Hx); exists x; split; try assumption; now apply H.
Qed.

Lemma no_keyword_in_spec (s : str) :
  no_keyword_in s = true ->
  forall c ks kw, dict_get categories c = Some ks -> In kw ks ->
                  ~ substring kw s.
Proof.
  unfold no_keyword_in. intros H c ks kw Hget Hin Hsub.
  rewrite forallb_forall in H. apply dict_get_in in Hget.
  specialize (H _ Hget). simpl in H. rewrite forallb_forall in H.
  specialize (H _ Hin). apply contains_spec in Hsub.
  rewrite Hsub in H. discriminate.
Qed.

(* ================================================================== *)
(** ** The model on small inputs *)

Example contains_inside : contains (u "обед") (u "кафе обед") = true.
Proof. reflexivity. Qed.

Example contains_empty_keyword : contains [] (u "кафе") = true.
Proof. reflexivity. Qed.

Example contains_not : contains (u "ника") (u "такси поездка") = false.
Proof. reflexivity. Qed.

Example lower_cyrillic : Lib.lower (u "Кафе в КРЕДИТ, Ёлка") = u "кафе в кредит, ёлка".
Proof. reflexivity. Qed.

Example dict_set_keeps_position :
  dict_set [(u "a", 1%Z); (u "b", 2%Z)] (u "a") 5%Z = [(u "a", 5%Z); (u "b", 2%Z)]
  /\ dict_set [(u "a", 1%Z); (u "b", 2%Z)] (u "c") 3%Z
     = [(u "a", 1%Z); (u "b", 2%Z); (u "c", 3%Z)].
Proof. split; reflexivity. Qed.

(** Ties keep the order of first occurrence, and the ranking stops at
    three: b and a occur twice, c and d once. *)
Example most_common_ties :
  most_common 3 (Counter [u "b"; u "a"; u "c"; u "a"; u "d"; u "b"])
  = [(u "b", 2%Z); (u "a", 2%Z); (u "c", 1%Z)].
Proof. reflexivity. Qed.

Example strptime_leap_day :
  Lib.strptime (u "2024-02-29") = Some (Lib.mkDate 2024 2 29)
  /\ Lib.strptime (u "2023-02-29") = None
  /\ Lib.strptime (u "2024-13-01") = None.
Proof. repeat split. Qed.

Example strftime_month :
  option_map Lib.strftime (Lib.strptime (u "2024-01-15")) = Some (u "2024-01").
Proof. reflexivity. Qed.

(** "кредит" wins over "кафе": its category stands earlier in the
    priority list, although the table lists it later. *)
Example categorize_two_matches :
  categorize_transaction_with_multiple Lib.lower Sample.two_matches
    categories categories_priority = u "погашение кредита".
Proof. vm_compute. reflexivity. Qed.

(** A keyword written with a capital letter never matches a lower-cased
    description. *)
Example capital_keyword_never_matches :
  categorize_transaction_with_multiple Lib.lower (u "Коммуналка") categories
    categories_priority = u "другое".
Proof. vm_compute. reflexivity. Qed.

(* ================================================================== *)
(** * The categoriser: fallback and priority *)

(** C1, as stated, fails: on the empty description no keyword of the
    configured table matches, and the category returned is "другое", not
    "other"; after [categorize_all_transactions] the category of such a
    transaction is outside the configured names united with "other". *)
Lemma fallback_is_not_other :
  (forall c ks kw, dict_get categories c = Some ks -> In kw ks ->
                   ~ substring kw (Lib.lower [])) /\
  categorize_transaction_with_multiple Lib.lower [] categories
    categories_priority <> u "other" /\
  (exists t c,
      In t (snd (categorize_all_transactions Lib.lower [Sample.blank])) /\
      category t = Some c /\
      ~ In c (categories_priority ++ [u "other"])).
Proof.
  split; [|split].
  - apply no_keyword_in_spec. vm_compute. reflexivity.
  - vm_compute. discriminate.
  - exists (categorized Lib.lower Sample.blank), fallback.
    split; [now left|]. split; [vm_compute; reflexivity|].
    intro H.
    assert (existsb (eqb_str fallback) (categories_priority ++ [u "other"]) = true)
      as Hb by (apply existsb_exists; exists fallback; split;
                [assumption|apply eqb_str_refl]).
    vm_compute in Hb. discriminate.
Qed.

(** C1 (amended): when no keyword of any category of the list occurs in
    the lower-cased description, the categoriser returns the fallback
    "другое"; after [categorize_all_transactions] every transaction carries
    a category that is one of the configured names or "другое", and is not
    the empty string. *)
Theorem categorize_fallback (lower : str -> str) :
  (forall description cats prio,
      (forall c ks kw, In c prio -> dict_get cats c = Some ks -> In kw ks ->
                       ~ substring kw (lower description)) ->
      categorize_transaction_with_multiple lower description cats prio
      = u "другое") /\
  (forall ts t,
      In t (snd (categorize_all_transactions lower ts)) ->
      exists c, category t = Some c /\
                In c (categories_priority ++ [u "другое"]) /\
                c <> []).
Proof.
  split.
  - intros d cats prio Hno. rewrite categorize_filter.
    assert (filter (matches lower cats d) prio = []) as ->; [|reflexivity].
    apply filter_none. intros c Hc. apply matches_false.
    intros (kw & Hin & Hsub). unfold keywords_of in Hin.
    destruct (dict_get cats c) as [ks|] eqn:E; [|destruct Hin].
    exact (Hno c ks kw Hc E Hin Hsub).
  - intros ts t Hin. rewrite categorize_all_spec in Hin. simpl in Hin.
    apply in_map_iff in Hin as (t0 & <- & _).
    eexists. split; [reflexivity|].
    pose proof (categorize_range lower
                  (match description t0 with Some d => d | None => [] end)
                  categories categories_priority) as Hr.
    split; [exact Hr|]. now apply configured_names_nonempty.
Qed.

Lemma categorize_fallback_witness :
  categorize_transaction_with_multiple Lib.lower (u "xyz") categories
    categories_priority = u "другое" /\
  (exists c, category (categorized Lib.lower Sample.taxi) = Some c /\
             In c (categories_priority ++ [u "другое"]) /\ c <> []).
Proof.
  split.
  - apply (proj1 (categorize_fallback Lib.lower)).
    intros c ks kw _. revert c ks kw.
    apply no_keyword_in_spec. vm_compute. reflexivity.
  - apply (proj2 (categorize_fallback Lib.lower) [Sample.taxi]).
    simpl. left. reflexivity.
Defined.

(** C2: when some category of the priority list has a keyword that occurs
    in the lower-cased description, the categoriser returns the first such
    category of the priority list: a category with a match, before which
    no category of the list has one.  The result depends on the table only
    through the set of keywords of each category, not on the order in which
    the table lists its categories or a category lists its keywords. *)
Theorem categorize_first_match (lower : str -> str) (description : str)
    (cats : dict (list str)) (prio : list str) :
  (exists c, In c prio /\ has_match lower cats description c) ->
  (exists before winner after,
      prio = before ++ winner :: after /\
      has_match lower cats description winner /\
      (forall c, In c before -> ~ has_match lower cats description c) /\
      categorize_transaction_with_multiple lower description cats prio
      = winner) /\
  (forall cats',
      (forall c kw, In kw (keywords_of cats' c) <-> In kw (keywords_of cats c)) ->
      categorize_transaction_with_multiple lower description cats' prio
      = categorize_transaction_with_multiple lower description cats prio).
Proof.
  intros (c & Hc & Hm). split.
  - rewrite categorize_filter.
    destruct (filter (matches lower cats description) prio) as [|w r] eqn:E.
    + exfalso. apply matches_spec in Hm.
      assert (In c (filter (matches lower cats description) prio)) as Hin
          by (apply filter_In; auto).
      rewrite E in Hin. destruct Hin.
    + destruct (filter_first _ _ E) as (b & af & -> & Hw & Hb).
      exists b, w, af. repeat split.
      * now apply matches_spec.
      * intros x Hx. apply matches_false. auto.
  - intros cats' Hsame. rewrite !categorize_filter.
    assert (filter (matches lower cats' description) prio
            = filter (matches lower cats description) prio) as ->;
      [|reflexivity].
    apply filter_ext. intro x. unfold matches.
    apply existsb_same_elements. apply Hsame.
Qed.

Lemma categorize_first_match_witness :
  exists before winner after,
    categories_priority = before ++ winner :: after /\
    has_match Lib.lower categories Sample.two_matches winner /\
    (forall c, In c before ->
               ~ has_match Lib.lower categories Sample.two_matches c) /\
    categorize_transaction_with_multiple Lib.lower Sample.two_matches
      categories categories_priority = winner.
Proof.
  apply (@categorize_first_match Lib.lower Sample.two_matches categories
           categories_priority).
  exists (u "обед и рестораны"). split.
  - vm_compute. tauto.
  - apply matches_spec. vm_compute. reflexivity.
Defined.

(* ================================================================== *)
(** * The aggregator: basic statistics and categories *)

Lemma dict_get_map {V W} (g : V -> W) (d : dict V) (k : str) :
  dict_get (map (fun kv => (fst kv, g (snd kv))) d) k =
  option_map g (dict_get d k).
Proof.
  induction d as [|[k0 v0] d IH]; simpl; [reflexivity|].
  now destruct (eqb_str k k0).
Qed.

Lemma dict_keys_map {V W} (g : V -> W) (d : dict V) :
  dict_keys (map (fun kv => (fst kv, g (snd kv))) d) = dict_keys d.
Proof.
  unfold dict_keys. rewrite map_map. reflexivity.
Qed.

(** The dictionary returned by [calculate_by_category]: one entry per key
    that files a transaction, computed from the transactions filed there. *)
Lemma category_stats_shape (ts : list transaction) :
  exists stats,
    calculate_by_category ts = (OK stats, ts) /\
    NoDup (dict_keys stats) /\
    total_count stats = Z.of_nat (List.length ts) /\
    forall k,
      dict_get stats k =
      match in_bucket k ts with
      | [] => None
      | _ :: _ =>
          Some (mkCat (py_sum (map amount (in_bucket k ts)))
                      (Z.of_nat (List.length (in_bucket k ts)))
                      (Some (percent_of (total_expenses_of ts)
                                        (py_sum (map amount (in_bucket k ts))))))
      end.
Proof.
  eexists. split; [apply calculate_by_category_spec|].
  split; [|split].
  - rewrite (dict_keys_map
               (fun e => mkCat (cat_sum e) (cat_count e)
                               (Some (percent_of (total_expenses_of ts) (cat_sum e))))).
    apply cat_step_keys_NoDup. constructor.
  - rewrite (total_count_map
               (fun e => mkCat (cat_sum e) (cat_count e)
                               (Some (percent_of (total_expenses_of ts) (cat_sum e)))))
      by reflexivity.
    rewrite total_count_fold. reflexivity.
  - intro k.
    rewrite (dict_get_map
               (fun e => mkCat (cat_sum e) (cat_count e)
                               (Some (percent_of (total_expenses_of ts) (cat_sum e))))).
    rewrite cat_step_get. simpl (dict_get [] k). rewrite bump_fold_none.
    destruct (in_bucket k ts); reflexivity.
Qed.

(** C4: [calculate_basic_stats] returns without error; [total_income] is,
    as a number, the sum of the amounts that are [>= 0] (the code sums the
    amounts that are [> 0], which is the same number); [total_expense] is
    the sum of the amounts that are [< 0] and is not positive; [balance] is
    exactly [total_income + total_expense]; [transaction_count] is the
    length of the input.  On the empty list all four are zero. *)
Theorem basic_stats_totals :
  (forall ts : list transaction,
      exists s,
        fst (calculate_basic_stats ts) = OK s /\
        total_income s
        == py_sum (map amount (filter (fun t => Qle_bool 0 (amount t)) ts)) /\
        total_expense s
        = py_sum (map amount (filter (fun t => Qltb (amount t) 0) ts)) /\
        total_expense s <= 0 /\
        total_income s + total_expense s = balance s /\
        transaction_count s = Z.of_nat (List.length ts)) /\
  fst (calculate_basic_stats []) = OK (mkBasic 0 0 0 0).
Proof.
  split; [|reflexivity].
  intro ts. rewrite calculate_basic_stats_spec. eexists.
  split; [reflexivity|]. cbn [total_income total_expense balance transaction_count].
  repeat split.
  - apply py_sum_income_ge.
  - apply py_sum_expenses_nonpos.
Qed.

(** C3: [calculate_by_category] returns without error.  With
    [total_expenses] the sum of the negative amounts of the whole input,
    every bucket of the result, whatever the sign of its sum, has
    [percent = (-sum / -total_expenses) * 100] when [total_expenses] is not
    zero and [percent = 0] when it is; the sum of a bucket is the sum of the
    amounts filed under its key.  When no amount is negative every percent
    is 0. *)
Theorem category_percent (ts : list transaction) :
  exists stats,
    fst (calculate_by_category ts) = OK stats /\
    let total_expenses :=
      py_sum (map amount (filter (fun t => Qltb (amount t) 0) ts)) in
    (forall k e,
        In (k, e) stats ->
        cat_sum e = py_sum (map amount (in_bucket k ts)) /\
        (~ total_expenses == 0 ->
         cat_percent e = Some ((- cat_sum e / - total_expenses) * 100)) /\
        (total_expenses == 0 -> cat_percent e = Some 0)) /\
    ((forall t, In t ts -> 0 <= amount t) ->
     forall k e, In (k, e) stats -> cat_percent e = Some 0).
Proof.
  destruct (category_stats_shape ts) as (stats & Hrun & Hnd & _ & Hget).
  exists stats. rewrite Hrun. split; [reflexivity|].
  intro total. change total with (total_expenses_of ts). clear total.
  assert (forall k e, In (k, e) stats ->
            cat_sum e = py_sum (map amount (in_bucket k ts)) /\
            cat_percent e = Some (percent_of (total_expenses_of ts) (cat_sum e)))
    as Hentry.
  { intros k e Hin. apply (dict_in_get _ _ _ Hnd) in Hin.
    rewrite Hget in Hin. destruct (in_bucket k ts); [discriminate|].
    injection Hin as <-. split; reflexivity. }
  split.
  - intros k e Hin. destruct (Hentry k e Hin) as [Hsum Hpct].
    split; [assumption|]. rewrite Hpct. unfold percent_of. split; intro H.
    + destruct (Qeq_bool (total_expenses_of ts) 0) eqn:E; [|reflexivity].
      apply Qeq_bool_iff in E. contradiction.
    + apply Qeq_bool_iff in H. now rewrite H.
  - intros Hpos k e Hin. destruct (Hentry k e Hin) as [_ ->].
    unfold percent_of, total_expenses_of.
    now rewrite (py_sum_no_expense ts Hpos).
Qed.

Lemma category_percent_witness :
  exists stats,
    fst (calculate_by_category [Sample.salary]) = OK stats /\
    forall k e, In (k, e) stats -> cat_percent e = Some 0.
Proof.
  destruct (category_percent [Sample.salary]) as (stats & Hrun & _ & Hzero).
  exists stats. split; [exact Hrun|].
  apply Hzero. intros t [<-|[]]. vm_compute. discriminate.
Defined.

(** C5, as stated, fails: a transaction without a category and one whose
    category is the empty string are filed in two buckets, "Без категории"
    and the empty key, so no bucket counts both. *)
Lemma missing_and_empty_are_two_buckets :
  (exists e1 e2,
      fst (calculate_by_category [Sample.no_key; Sample.empty_key])
      = OK [(u "Без категории", e1); ([], e2)] /\
      cat_count e1 = 1%Z /\ cat_count e2 = 1%Z) /\
  ~ (exists stats k e,
        fst (calculate_by_category [Sample.no_key; Sample.empty_key]) = OK stats /\
        dict_get stats k = Some e /\ cat_count e = 2%Z).
Proof.
  split; [do 2 eexists; split; [reflexivity|split; reflexivity]|].
  intros (stats & k & e & Hrun & Hget & Hcount).
  vm_compute in Hrun. injection Hrun as <-.
  simpl in Hget.
  destruct (eqb_str k _) in Hget.
  - injection Hget as <-. vm_compute in Hcount. discriminate.
  - destruct (eqb_str k _) in Hget; [|discriminate].
    injection Hget as <-. vm_compute in Hcount. discriminate.
Qed.

(** C5 (amended): [calculate_by_category] groups by
    [t.get('category', 'Без категории')]: a transaction without a category
    is filed under "Без категории", any other under its category string,
    the empty string included.  No transaction is dropped: the key of every
    transaction is in the result, the count of a bucket is the number of
    transactions filed under its key, the keys are distinct and the counts
    add up to the length of the input. *)
Theorem category_buckets (ts : list transaction) :
  exists stats,
    fst (calculate_by_category ts) = OK stats /\
    NoDup (dict_keys stats) /\
    (forall t, In t ts ->
       exists e,
         dict_get stats (match category t with
                         | Some c => c
                         | None => u "Без категории"
                         end) = Some e) /\
    (forall k e, dict_get stats k = Some e ->
       cat_count e
       = Z.of_nat (List.length
                     (filter (fun t => eqb_str (match category t with
                                                | Some c => c
                                                | None => u "Без категории"
                                                end) k) ts))) /\
    total_count stats = Z.of_nat (List.length ts).
Proof.
  destruct (category_stats_shape ts) as (stats & Hrun & Hnd & Htotal & Hget).
  exists stats. rewrite Hrun. repeat split; try assumption.
  - intros t Hin. fold no_category. fold (bucket_key t). rewrite Hget.
    assert (In t (in_bucket (bucket_key t) ts)) as Hb
        by (apply filter_In; split; [assumption|apply eqb_str_refl]).
    destruct (in_bucket (bucket_key t) ts); [destruct Hb|]. eexists. reflexivity.
  - intros k e He. rewrite Hget in He.
    change (filter _ ts) with (in_bucket k ts).
    destruct (in_bucket k ts); [discriminate|]. now injection He as <-.
Qed.

(* ================================================================== *)
(** * The aggregator: months *)

Section TimeStats.
Variable datetime : Type.
Variable strptime : str -> option datetime.
Variable strftime : datetime -> str.

Local Abbreviation mkey := (month_key strptime strftime).
Local Abbreviation inm := (in_month strptime strftime).

(** The dictionary returned by [analyze_by_time] when every date parses:
    one entry per month key, computed from the transactions of that month. *)
Lemma time_stats_shape (ts : list transaction) :
  (forall t, In t ts -> strptime (date t) <> None) ->
  exists stats,
    analyze_by_time strptime strftime ts = (OK stats, ts) /\
    NoDup (dict_keys stats) /\
    forall m,
      dict_get stats m =
      match inm m ts with
      | [] => None
      | _ :: _ =>
          Some (mkMonth
                  (py_sum (map amount (filter is_income (inm m ts))))
                  (py_sum (map amount (filter is_expense (inm m ts))))
                  (month_expense_categories strptime strftime m ts)
                  (Some (most_common 3
                           (Counter (month_expense_categories strptime strftime m ts)))))
      end.
Proof.
  intro Hall. eexists. split; [|split].
  - rewrite analyze_by_time_spec, (time_loop_ok _ _ _ _ Hall). reflexivity.
  - rewrite (dict_keys_map finish_month).
    apply month_step_keys_NoDup. constructor.
  - intro m. rewrite (dict_get_map finish_month), month_step_get.
    simpl (dict_get [] m). rewrite bump_month_fold_none.
    unfold month_expense_categories. destruct (inm m ts); reflexivity.
Qed.

Lemma time_stats_ok_inv (ts : list transaction) (stats : dict month_entry) :
  fst (analyze_by_time strptime strftime ts) = OK stats ->
  forall t, In t ts -> strptime (date t) <> None.
Proof.
  rewrite analyze_by_time_spec. simpl.
  destruct (fold_result (time_step strptime strftime) ts []) as [d|e] eqn:E;
    [|discriminate].
  intros _. now apply time_loop_ok_inv in E as [Hall _].
Qed.

Lemma in_month_in (m : str) (t : transaction) (ts : list transaction) :
  In t ts -> mkey t = Some m -> In t (inm m ts).
Proof.
  intros Hin Hk. apply filter_In. split; [assumption|].
  rewrite Hk. apply eqb_str_refl.
Qed.

Lemma in_month_key (m : str) (t : transaction) (ts : list transaction) :
  In t (inm m ts) -> In t ts /\ mkey t = Some m.
Proof.
  intro H. apply filter_In in H as [Hin Hk]. split; [assumption|].
  destruct (mkey t) as [k|]; [|discriminate].
  apply eqb_str_eq in Hk. now subst.
Qed.

End TimeStats.

(** C6: [analyze_by_time] raises the parser's [ValueError] as soon as a
    date does not parse: with a date that [strptime] rejects in the input,
    the call returns no statistics and raises the error of the first such
    transaction, naming its date; when every date parses, the call returns
    statistics. *)
Theorem time_stats_date_error (datetime : Type)
    (strptime : str -> option datetime) (strftime : datetime -> str)
    (ts : list transaction) :
  ((exists t, In t ts /\ strptime (date t) = None) ->
   exists before t after,
     ts = before ++ t :: after /\
     (forall t', In t' before -> strptime (date t') <> None) /\
     strptime (date t) = None /\
     fst (analyze_by_time strptime strftime ts) = Raise (ValueError (date t))) /\
  ((forall t, In t ts -> strptime (date t) <> None) ->
   exists stats, fst (analyze_by_time strptime strftime ts) = OK stats).
Proof.
  split.
  - intro Hbad.
    destruct (first_unparsed strptime ts Hbad) as (b & t & af & -> & Hb & Ht).
    exists b, t, af. repeat split; try assumption.
    rewrite analyze_by_time_spec. simpl.
    now rewrite (time_loop_fail strptime strftime b af t [] Hb Ht).
  - intro Hall.
    destruct (time_stats_shape strptime strftime ts Hall) as (stats & Hrun & _).
    exists stats. now rewrite Hrun.
Qed.

Lemma time_stats_date_error_witness :
  fst (analyze_by_time Lib.strptime Lib.strftime
         [Sample.salary; Sample.bad_date; Sample.taxi])
  = Raise (ValueError (u "05.01.2024")) /\
  (exists stats,
      fst (analyze_by_time Lib.strptime Lib.strftime Sample.three) = OK stats).
Proof.
  split.
  - destruct (proj1 (time_stats_date_error Lib.strptime Lib.strftime
                       [Sample.salary; Sample.bad_date; Sample.taxi]))
      as (b & t & af & _ & _ & _ & H).
    + exists Sample.bad_date. split; [simpl; tauto|reflexivity].
    + vm_compute. reflexivity.
  - apply (proj2 (time_stats_date_error Lib.strptime Lib.strftime Sample.three)).
    intros t [<-|[<-|[<-|[]]]]; vm_compute; discriminate.
Defined.

(** C7: when every date parses, [analyze_by_time] returns statistics in
    which the [top_categories] of every month is the frequency ranking of
    the categories of that month's expense transactions (duplicates
    retained): at most 3 pairs; each pair is a category of the list with
    its number of occurrences; a pair stands before another when its count
    is larger, or equal with an earlier first occurrence in the list; a
    category of the list that is left out ranks after every pair kept;
    and a month without expense transactions has the empty list. *)
Theorem top_categories_ranking (datetime : Type)
    (strptime : str -> option datetime) (strftime : datetime -> str)
    (ts : list transaction) :
  (forall t, In t ts -> strptime (date t) <> None) ->
  exists stats,
    fst (analyze_by_time strptime strftime ts) = OK stats /\
    forall m e,
      In (m, e) stats ->
      exists top,
        top_categories e = Some top /\
        month_categories e = month_expense_categories strptime strftime m ts /\
        let cats := month_categories e in
        (List.length top <= 3)%nat /\
        (forall c k, In (c, k) top -> k = occurrences c cats /\ In c cats) /\
        StronglySorted (ranks_before cats) top /\
        (forall c, In c cats -> ~ In c (map fst top) ->
           List.length top = 3%nat /\
           forall x, In x top -> ranks_before cats x (c, occurrences c cats)) /\
        (cats = [] -> top = []).
Proof.
  intro Hall.
  destruct (time_stats_shape strptime strftime ts Hall) as (stats & Hrun & Hnd & Hget).
  exists stats. rewrite Hrun. split; [reflexivity|].
  intros m e Hin. apply (dict_in_get _ _ _ Hnd) in Hin. rewrite Hget in Hin.
  destruct (in_month strptime strftime m ts); [discriminate|].
  injection Hin as <-. eexists. split; [reflexivity|]. split; [reflexivity|].
  cbn [month_categories].
  set (cats := month_expense_categories strptime strftime m ts).
  destruct (most_common_spec 3 cats) as (Hlen & Hocc & Hsorted & Hrest).
  repeat split; try assumption.
  - now apply (Hocc c k).
  - now apply (Hocc c k).
  - now apply (Hrest c).
  - now apply (Hrest c).
  - intros ->. reflexivity.
Qed.

Lemma top_categories_ranking_witness :
  exists stats,
    fst (analyze_by_time Lib.strptime Lib.strftime
           (snd (categorize_all_transactions Lib.lower Sample.three)))
    = OK stats /\
    forall m e, In (m, e) stats ->
                exists top, top_categories e = Some top /\
                            (List.length top <= 3)%nat.
Proof.
  destruct (@top_categories_ranking Lib.datetime Lib.strptime Lib.strftime
              (snd (categorize_all_transactions Lib.lower Sample.three)))
    as (stats & Hrun & Htop).
  - intros t [<-|[<-|[<-|[]]]]; vm_compute; discriminate.
  - exists stats. split; [exact Hrun|].
    intros m e Hin. destruct (Htop m e Hin) as (top & Ht & _ & Hlen & _).
    now exists top.
Defined.

(** C10: in the statistics [analyze_by_time] returns, the month key of
    every transaction is a key, whatever the amount.  The entry of a month
    sums the positive amounts of the month as income and the negative ones
    as expenses, and lists the categories of the negative ones, so a
    zero amount enters none of the three; a month whose transactions all
    have amount 0 has income 0, expenses 0, no categories and an empty
    [top_categories]. *)
Theorem zero_amount_month (datetime : Type)
    (strptime : str -> option datetime) (strftime : datetime -> str)
    (ts : list transaction) (stats : dict month_entry) :
  fst (analyze_by_time strptime strftime ts) = OK stats ->
  (forall t, In t ts ->
     exists k, month_key strptime strftime t = Some k /\
               In k (dict_keys stats)) /\
  (forall m e, dict_get stats m = Some e ->
     income e
     = py_sum (map amount (filter (fun t => Qltb 0 (amount t))
                                  (in_month strptime strftime m ts))) /\
     expenses e
     = py_sum (map amount (filter (fun t => Qltb (amount t) 0)
                                  (in_month strptime strftime m ts))) /\
     month_categories e
     = map bucket_key (filter (fun t => Qltb (amount t) 0)
                              (in_month strptime strftime m ts))) /\
  (forall m,
     (exists t, In t ts /\ month_key strptime strftime t = Some m) ->
     (forall t, In t ts -> month_key strptime strftime t = Some m ->
                amount t == 0) ->
     exists e,
       dict_get stats m = Some e /\
       income e = 0 /\ expenses e = 0 /\
       month_categories e = [] /\ top_categories e = Some []).
Proof.
  intro Hrun.
  pose proof (time_stats_ok_inv strptime strftime ts Hrun) as Hall.
  destruct (time_stats_shape strptime strftime ts Hall) as (stats' & Hrun' & Hnd & Hget).
  rewrite Hrun' in Hrun. injection Hrun as ->.
  split; [|split].
  - intros t Hin. unfold month_key.
    destruct (strptime (date t)) as [o|] eqn:E; [|now apply Hall in E].
    exists (strftime o). split; [reflexivity|].
    apply dict_get_in_keys. rewrite Hget.
    assert (In t (in_month strptime strftime (strftime o) ts)) as Hm
        by (apply in_month_in; [assumption|unfold month_key; now rewrite E]).
    destruct (in_month strptime strftime (strftime o) ts);
      [destruct Hm|discriminate].
  - intros m e He. rewrite Hget in He. unfold month_expense_categories in He.
    destruct (in_month strptime strftime m ts); [discriminate|].
    injection He as <-. repeat split.
  - intros m (t & Hin & Hk) Hzero. rewrite Hget.
    pose proof (@in_month_in _ strptime strftime m t ts Hin Hk) as Hm.
    assert (filter is_income (in_month strptime strftime m ts) = []) as Hi.
    { apply filter_none. intros x Hx.
      apply in_month_key in Hx as [Hx1 Hx2]. apply Qltb_ge.
      rewrite (Hzero x Hx1 Hx2). apply Qle_refl. }
    assert (filter is_expense (in_month strptime strftime m ts) = []) as He.
    { apply filter_none. intros x Hx.
      apply in_month_key in Hx as [Hx1 Hx2]. apply Qltb_ge.
      rewrite (Hzero x Hx1 Hx2). apply Qle_refl. }
    unfold month_expense_categories. rewrite Hi, He.
    destruct (in_month strptime strftime m ts); [destruct Hm|].
    eexists. split; [reflexivity|]. repeat split.
Qed.

Lemma zero_amount_month_witness :
  fst (analyze_by_time Lib.strptime Lib.strftime [Sample.lunch; Sample.nothing])
  = OK [ (u "2024-01", mkMonth 0 (0 + -50) [u "Без категории"]
                               (Some [(u "Без категории", 1%Z)]));
         (u "2024-03", mkMonth 0 0 [] (Some [])) ] /\
  (exists e,
      dict_get [ (u "2024-01", mkMonth 0 (0 + -50) [u "Без категории"]
                                       (Some [(u "Без категории", 1%Z)]));
                 (u "2024-03", mkMonth 0 0 [] (Some [])) ]
               (u "2024-03") = Some e /\
      income e = 0 /\ expenses e = 0 /\
      month_categories e = [] /\ top_categories e = Some []).
Proof.
  split; [vm_compute; reflexivity|].
  apply (@zero_amount_month Lib.datetime Lib.strptime Lib.strftime
           [Sample.lunch; Sample.nothing]).
  - vm_compute. reflexivity.
  - exists Sample.nothing. split; [simpl; tauto|vm_compute; reflexivity].
  - intros t [<-|[<-|[]]]; vm_compute; intro H; [discriminate|reflexivity].
Defined.

(* ================================================================== *)
(** * The pipeline *)

(** C8: the end-to-end example.  The three transactions are categorised
    as "зарплата и доходы", "обед и рестораны" and "транспорт"; the basic
    statistics are income 1000, expense -250, balance 750, count 3; the
    percentage of "обед и рестораны" is 20 and that of "транспорт" is 80;
    the months are "2024-01" and "2024-02", and the top categories of
    "2024-01" are [("обед и рестораны", 1)]. *)
Theorem end_to_end_example :
  let ts := snd (categorize_all_transactions Lib.lower Sample.three) in
  map category ts
  = [ Some (u "зарплата и доходы"); Some (u "обед и рестораны");
      Some (u "транспорт") ] /\
  fst (calculate_basic_stats ts) = OK (mkBasic 1000 (-250) 750 3) /\
  (exists stats lunch taxi p_lunch p_taxi,
      fst (calculate_by_category ts) = OK stats /\
      dict_get stats (u "обед и рестораны") = Some lunch /\
      cat_percent lunch = Some p_lunch /\ p_lunch == 20 /\
      dict_get stats (u "транспорт") = Some taxi /\
      cat_percent taxi = Some p_taxi /\ p_taxi == 80) /\
  (exists months january,
      fst (analyze_by_time Lib.strptime Lib.strftime ts) = OK months /\
      dict_keys months = [u "2024-01"; u "2024-02"] /\
      dict_get months (u "2024-01") = Some january /\
      top_categories january = Some [(u "обед и рестораны", 1%Z)]).
Proof.
  cbv zeta. split; [vm_compute; reflexivity|].
  split; [vm_compute; reflexivity|]. split.
  - do 5 eexists.
    split; [vm_compute; reflexivity|].
    split; [vm_compute; reflexivity|].
    split; [reflexivity|].
    split; [vm_compute; reflexivity|].
    split; [vm_compute; reflexivity|].
    split; [reflexivity|]. vm_compute. reflexivity.
  - do 2 eexists.
    split; [vm_compute; reflexivity|].
    split; [vm_compute; reflexivity|].
    split; vm_compute; reflexivity.
Qed.

(** C9: the three aggregation passes leave the list of transactions as it
    was, whether they return or raise, so no field of any transaction
    changes.  [categorize_all_transactions] returns the list it was given,
    in which the date, amount, description and type of every transaction
    are unchanged; running it again on its result leaves every transaction,
    and so every category, as the first run set it. *)
Theorem aggregation_frame (lower : str -> str) (datetime : Type)
    (strptime : str -> option datetime) (strftime : datetime -> str)
    (ts : list transaction) :
  snd (calculate_basic_stats ts) = ts /\
  snd (calculate_by_category ts) = ts /\
  snd (analyze_by_time strptime strftime ts) = ts /\
  (let ts' := snd (categorize_all_transactions lower ts) in
   fst (categorize_all_transactions lower ts) = OK ts' /\
   Forall2 (fun t t' =>
              date t' = date t /\ amount t' = amount t /\
              description t' = description t /\ txn_type t' = txn_type t)
           ts ts' /\
   categorize_all_transactions lower ts' = (OK ts', ts')).
Proof.
  split; [now rewrite calculate_basic_stats_spec|].
  split; [now rewrite calculate_by_category_spec|].
  split; [now rewrite analyze_by_time_spec|].
  cbv zeta. rewrite !categorize_all_spec. cbn [fst snd].
  split; [reflexivity|]. split.
  - induction ts as [|t ts IH]; simpl; constructor; [|assumption].
    repeat split.
  - rewrite map_map.
    rewrite (map_ext _ _ (categorized_idem lower)). reflexivity.
Qed.

(* ================================================================== *)
(** * Further properties of the categoriser *)

Lemma first_index_app_le (x : str) (l1 l2 : list str) :
  (first_index x (l1 ++ x :: l2) <= List.length l1)%nat.
Proof.
  induction l1 as [|y l1 IH]; simpl.
  - now rewrite eqb_str_refl.
  - destruct (eqb_str x y); lia.
Qed.

Lemma first_index_app_notin (x : str) (l1 l2 : list str) :
  ~ In x l1 -> (List.length l1 <= first_index x (l1 ++ l2))%nat.
Proof.
  induction l1 as [|y l1 IH]; simpl; intro H; [lia|].
  destruct (eqb_str x y) eqn:E.
  - apply eqb_str_eq in E. subst. tauto.
  - assert (~ In x l1) as H' by tauto. specialize (IH H'). lia.
Qed.

(** X1: whatever the table and the priority list, the categoriser returns
    either the fallback "другое", and then no category of the list has a
    matching keyword, or a category of the priority list that has one.  A
    category that is only in the keyword table is never returned. *)
Theorem categorize_result_cases (lower : str -> str) (description : str)
    (cats : dict (list str)) (prio : list str) :
  let r := categorize_transaction_with_multiple lower description cats prio in
  (r = u "другое" /\
   forall c, In c prio -> ~ has_match lower cats description c) \/
  (In r prio /\ has_match lower cats description r).
Proof.
  cbv zeta. rewrite categorize_filter.
  destruct (filter (matches lower cats description) prio) as [|w rest] eqn:E.
  - left. split; [reflexivity|]. intros c Hc Hm. apply matches_spec in Hm.
    assert (In c (filter (matches lower cats description) prio)) as Hin
        by (apply filter_In; auto).
    rewrite E in Hin. destruct Hin.
  - right.
    assert (In w (filter (matches lower cats description) prio)) as Hin
        by (rewrite E; now left).
    apply filter_In in Hin as [Hin Hm]. split; [assumption|].
    now apply matches_spec.
Qed.

(** X2: the empty string is a keyword that occurs in every description.
    A category of the priority list that lists it is matched by every
    description, so the result is never the fallback for lack of a match:
    it is that category or one that stands before it in the list. *)
Theorem empty_keyword_matches_all (lower : str -> str)
    (cats : dict (list str)) (prio : list str) (c : str) :
  In c prio ->
  In [] (keywords_of cats c) ->
  forall description,
    let r := categorize_transaction_with_multiple lower description cats prio in
    In r prio /\ has_match lower cats description r /\
    (first_index r prio <= first_index c prio)%nat.
Proof.
  intros Hc Hk d. cbv zeta. rewrite categorize_filter.
  assert (matches lower cats d c = true) as Hm.
  { apply matches_spec. exists []. split; [assumption|].
    exists [], (lower d). reflexivity. }
  destruct (filter (matches lower cats d) prio) as [|w rest] eqn:E.
  - assert (In c (filter (matches lower cats d) prio)) as Hin
        by (apply filter_In; auto).
    rewrite E in Hin. destruct Hin.
  - destruct (filter_first _ _ E) as (b & af & -> & Hw & Hb).
    split; [apply in_or_app; right; now left|].
    split; [now apply matches_spec|].
    assert (~ In c b) as Hnb by (intro H; apply Hb in H; congruence).
    pose proof (first_index_app_le w b af).
    pose proof (first_index_app_notin c b (w :: af) Hnb). lia.
Qed.

Lemma empty_keyword_matches_all_witness :
  In (categorize_transaction_with_multiple Lib.lower (u "zzz")
        [(u "a", [u "x"]); (u "b", [[]])] [u "a"; u "b"])
     [u "a"; u "b"].
Proof.
  apply (@empty_keyword_matches_all Lib.lower
           [(u "a", [u "x"]); (u "b", [[]])] [u "a"; u "b"] (u "b")).
  - simpl. tauto.
  - vm_compute. tauto.
Defined.

(** X3: categories appended to the priority list cannot override the
    ones before them: when a category of the first part matches, the
    result is that of the first part alone; when none does, it is that of
    the appended part. *)
Theorem priority_list_append (lower : str -> str) (description : str)
    (cats : dict (list str)) (first_part appended : list str) :
  ((exists c, In c first_part /\ has_match lower cats description c) ->
   categorize_transaction_with_multiple lower description cats
     (first_part ++ appended)
   = categorize_transaction_with_multiple lower description cats first_part) /\
  ((forall c, In c first_part -> ~ has_match lower cats description c) ->
   categorize_transaction_with_multiple lower description cats
     (first_part ++ appended)
   = categorize_transaction_with_multiple lower description cats appended).
Proof.
  rewrite !categorize_filter, filter_app. split.
  - intros (c & Hc & Hm). apply matches_spec in Hm.
    assert (In c (filter (matches lower cats description) first_part)) as Hin
        by (apply filter_In; auto).
    destruct (filter (matches lower cats description) first_part);
      [destruct Hin|reflexivity].
  - intro Hno.
    rewrite (filter_none (matches lower cats description) first_part);
      [reflexivity|].
    intros x Hx. apply matches_false. auto.
Qed.

Lemma priority_list_append_witness :
  categorize_transaction_with_multiple Lib.lower Sample.two_matches categories
    ([u "обед и рестораны"] ++ [u "погашение кредита"])
  = categorize_transaction_with_multiple Lib.lower Sample.two_matches categories
      [u "обед и рестораны"]
  /\
  categorize_transaction_with_multiple Lib.lower Sample.two_matches categories
    ([u "налоги"] ++ [u "погашение кредита"])
  = categorize_transaction_with_multiple Lib.lower Sample.two_matches categories
      [u "погашение кредита"].
Proof.
  split.
  - apply (proj1 (priority_list_append Lib.lower Sample.two_matches categories
                    [u "обед и рестораны"] [u "погашение кредита"])).
    exists (u "обед и рестораны"). split; [now left|].
    apply matches_spec. vm_compute. reflexivity.
  - apply (proj2 (priority_list_append Lib.lower Sample.two_matches categories
                    [u "налоги"] [u "погашение кредита"])).
    intros c [<-|[]]. apply matches_false. vm_compute. reflexivity.
Defined.

(** X4: a transaction without a description, or with an empty one, is
    categorised "другое" by [categorize_all_transactions]: the default of
    [.get("description", "")] is the empty string, and no keyword of the
    configured table is empty. *)
Theorem no_description_is_fallback (lower : str -> str) :
  lower [] = [] ->
  forall ts t,
    In t ts ->
    description t = None \/ description t = Some [] ->
    exists t',
      In t' (snd (categorize_all_transactions lower ts)) /\
      date t' = date t /\ amount t' = amount t /\
      description t' = description t /\
      category t' = Some (u "другое").
Proof.
  intros Hlow ts t Hin Hd. exists (categorized lower t).
  rewrite categorize_all_spec. cbn [snd]. split; [now apply in_map|].
  repeat split. unfold categorized. cbn [category]. f_equal.
  assert (match description t with Some d => d | None => [] end = []) as ->
      by (destruct Hd as [-> | ->]; reflexivity).
  rewrite categorize_filter.
  rewrite filter_none; [reflexivity|].
  intros c _. apply matches_false. intros (kw & Hk & Hsub).
  unfold keywords_of in Hk.
  destruct (dict_get categories c) as [ks|] eqn:E; [|destruct Hk].
  rewrite Hlow in Hsub.
  assert (no_keyword_in [] = true) as Hno by (vm_compute; reflexivity).
  exact (@no_keyword_in_spec [] Hno c ks kw E Hk Hsub).
Qed.

Lemma no_description_is_fallback_witness :
  exists t',
    In t' (snd (categorize_all_transactions Lib.lower [Sample.salary; Sample.blank])) /\
    date t' = date Sample.blank /\ amount t' = amount Sample.blank /\
    description t' = description Sample.blank /\
    category t' = Some (u "другое").
Proof.
  apply (no_description_is_fallback Lib.lower).
  - reflexivity.
  - simpl. tauto.
  - right. reflexivity.
Defined.

(* ================================================================== *)
(** * Further properties of the basic statistics *)








(* ================================================================== *)
(** * Further properties of the statistics by category *)

Lemma dict_total_set {V} (f : V -> Q) (d : dict V) (k : str) (v : V) :
  dict_total f (dict_set d k v)
  == dict_total f d
     - match dict_get d k with Some e => f e | None => 0 end
     + f v.
Proof.
  induction d as [|[k0 v0] d IH]; simpl.
  - ring.
  - destruct (eqb_str k k0); simpl; [ring|]. rewrite IH. ring.
Qed.

Lemma dict_total_map {V W} (f : W -> Q) (g : V -> W) (h : V -> Q) (d : dict V) :
  (forall v, f (g v) == h v) ->
  dict_total f (map (fun kv => (fst kv, g (snd kv))) d) == dict_total h d.
Proof.
  intro H. induction d as [|[k v] d IH]; simpl; [reflexivity|].
  now rewrite H, IH.
Qed.

Lemma cat_step_total (ts : list transaction) (d : dict category_entry) :
  dict_total cat_sum (fold_left cat_step ts d)
  == dict_total cat_sum d + py_sum (map amount ts).
Proof.
  revert d. induction ts as [|t ts IH]; intro d.
  - simpl. unfold py_sum. simpl. ring.
  - cbn [fold_left map]. rewrite IH, py_sum_cons. unfold cat_step.
    rewrite dict_total_set.
    destruct (dict_get d (bucket_key t)); simpl; ring.
Qed.

Lemma dict_mem_same_keys {V W} (d : dict V) (c : dict W) (k : str) :
  dict_keys d = dict_keys c -> dict_mem d k = dict_mem c k.
Proof.
  intro H. unfold dict_mem.
  pose proof (dict_get_in_keys d k) as Hd.
  pose proof (dict_get_in_keys c k) as Hc.
  rewrite H in Hd.
  destruct (dict_get d k), (dict_get c k); try reflexivity; exfalso.
  - apply (proj1 Hc); [apply Hd; discriminate|reflexivity].
  - apply (proj1 Hd); [apply Hc; discriminate|reflexivity].
Qed.

Lemma dict_set_same_keys {V W} (d : dict V) (c : dict W) (k : str) (v : V) (w : W) :
  dict_keys d = dict_keys c ->
  dict_keys (dict_set d k v) = dict_keys (dict_set c k w).
Proof.
  intro H. rewrite !dict_keys_set, (dict_mem_same_keys d c k H), H.
  reflexivity.
Qed.

Lemma cat_step_keys_counter (ts : list transaction) (d : dict category_entry)
    (c : dict Z) :
  dict_keys d = dict_keys c ->
  dict_keys (fold_left cat_step ts d)
  = dict_keys (fold_left count_step (map bucket_key ts) c).
Proof.
  revert d c. induction ts as [|t ts IH]; intros d c H; [exact H|].
  cbn [fold_left map]. apply IH. now apply dict_set_same_keys.
Qed.

Lemma category_stats_keys (ts : list transaction) :
  exists stats,
    calculate_by_category ts = (OK stats, ts) /\
    dict_keys stats = dict_keys (Counter (map bucket_key ts)) /\
    dict_total cat_sum stats == py_sum (map amount ts) /\
    forall k e, In (k, e) stats ->
                cat_percent e = Some (percent_of (total_expenses_of ts) (cat_sum e)).
Proof.
  eexists. split; [apply calculate_by_category_spec|]. split; [|split].
  - rewrite (dict_keys_map
               (fun e => mkCat (cat_sum e) (cat_count e)
                               (Some (percent_of (total_expenses_of ts) (cat_sum e))))).
    unfold Counter. rewrite Counter_fold.
    now apply cat_step_keys_counter.
  - rewrite (dict_total_map cat_sum
               (fun e => mkCat (cat_sum e) (cat_count e)
                               (Some (percent_of (total_expenses_of ts) (cat_sum e))))
               cat_sum) by reflexivity.
    rewrite cat_step_total. simpl. ring.
  - intros k e Hin. apply in_map_iff in Hin as ([k0 e0] & [= <- <-] & _).
    reflexivity.
Qed.


(** X9: the keys of the dictionary [calculate_by_category] returns are the
    keys under which the transactions are filed, each once, in the order
    in which they first occur in the input; this is the order in which
    [main] prints the categories. *)
Theorem category_keys_order (ts : list transaction) :
  exists stats,
    fst (calculate_by_category ts) = OK stats /\
    NoDup (dict_keys stats) /\
    (forall k, In k (dict_keys stats) <->
               exists t, In t ts /\ bucket_key t = k) /\
    StronglySorted
      (fun a b => (first_index a (map bucket_key ts)
                   < first_index b (map bucket_key ts))%nat)
      (dict_keys stats).
Proof.
  destruct (category_stats_keys ts) as (stats & Hrun & Hkeys & _).
  exists stats. rewrite Hrun, Hkeys. split; [reflexivity|].
  split; [apply Counter_NoDup|]. split; [|apply Counter_keys_sorted].
  intro k. rewrite Counter_keys_in, in_map_iff.
  split; intros (t & H1 & H2); exists t; tauto.
Qed.







(** X11: with a non-zero total of expenses, the percentage of a bucket has
    the sign opposite to that of its sum: a bucket whose amounts add up to
    an income has a negative percentage, one that adds up to an expense a
    positive one. *)
Theorem category_percent_sign (ts : list transaction) :
  exists stats,
    fst (calculate_by_category ts) = OK stats /\
    (~ py_sum (map amount (filter (fun t => Qltb (amount t) 0) ts)) == 0 ->
     forall k e p,
       In (k, e) stats -> cat_percent e = Some p ->
       (0 < cat_sum e -> p < 0) /\ (cat_sum e < 0 -> 0 < p) /\
       (cat_sum e == 0 -> p == 0)).
Proof.
  destruct (category_stats_keys ts) as (stats & Hrun & _ & _ & Hpct).
  exists stats. rewrite Hrun. split; [reflexivity|].
  intros HT k e p Hin Hp. rewrite (Hpct k e Hin) in Hp. injection Hp as <-.
  fold is_expense in HT. fold (total_expenses_of ts) in HT.
  pose proof (py_sum_expenses_nonpos ts) as Hle.
  fold (total_expenses_of ts) in Hle.
  unfold percent_of.
  destruct (Qeq_bool (total_expenses_of ts) 0) eqn:E;
    [apply Qeq_bool_iff in E; contradiction|]. cbn [negb].
  set (T := total_expenses_of ts) in *. set (s := cat_sum e).
  assert (T < 0) as HTneg.
  { destruct (Qlt_le_dec T 0) as [H|H]; [assumption|].
    exfalso. apply HT. now apply Qle_antisym. }
  assert (0 < / - T) as Hinv by (apply Qinv_lt_0_compat; lra).
  assert (- s / - T * 100 == (- s * 100) * / - T) as -> by (unfold Qdiv; ring).
  repeat split; intro Hs.
  - assert (0 < (s * 100) * / - T) by (apply Qmult_lt_0_compat; lra).
    assert (- s * 100 * / - T == - (s * 100 * / - T)) as -> by ring. lra.
  - apply Qmult_lt_0_compat; lra.
  - rewrite Hs. ring.
Qed.

Lemma category_percent_sign_witness :
  exists stats,
    fst (calculate_by_category Sample.three) = OK stats /\
    forall k e p,
      In (k, e) stats -> cat_percent e = Some p ->
      0 < cat_sum e -> p < 0.
Proof.
  destruct (category_percent_sign Sample.three) as (stats & Hrun & Hsign).
  exists stats. split; [exact Hrun|].
  intros k e p Hin Hp.
  apply (Hsign ltac:(vm_compute; discriminate) k e p Hin Hp).
Defined.

Lemma fallback_bucket_names :
  forall k, In k (categories_priority ++ [fallback]) -> k <> no_category.
Proof.
  intros k H.
  assert (forallb (fun c => negb (eqb_str c no_category))
                  (categories_priority ++ [fallback]) = true) as Hall
      by (vm_compute; reflexivity).
  rewrite forallb_forall in Hall. specialize (Hall k H).
  now apply negb_true_iff, eqb_str_neq in Hall.
Qed.

(** X12: in the pipeline of [main], where [calculate_by_category] runs on
    the result of [categorize_all_transactions], every bucket is one of the
    configured categories or "другое", there are at most 16 buckets, and
    the default bucket "Без категории" does not occur. *)
Theorem pipeline_buckets (lower : str -> str) (ts : list transaction) :
  exists stats,
    fst (calculate_by_category (snd (categorize_all_transactions lower ts)))
    = OK stats /\
    (forall k, In k (dict_keys stats) ->
               In k (categories_priority ++ [u "другое"]) /\
               k <> u "Без категории") /\
    (List.length (dict_keys stats) <= 16)%nat.
Proof.
  destruct (category_stats_keys (snd (categorize_all_transactions lower ts)))
    as (stats & Hrun & Hkeys & _).
  exists stats. rewrite Hrun. split; [reflexivity|].
  assert (forall k, In k (dict_keys stats) ->
                    In k (categories_priority ++ [fallback])) as Hin.
  { intros k Hk. rewrite Hkeys in Hk.
    apply (proj1 (Counter_keys_in _ _)) in Hk.
    rewrite categorize_all_spec in Hk. cbn [snd] in Hk.
    rewrite map_map in Hk. apply in_map_iff in Hk as (t & <- & _).
    apply categorize_range. }
  split.
  - intros k Hk. split; [now apply Hin|]. apply fallback_bucket_names.
    now apply Hin.
  - change 16%nat with (List.length (categories_priority ++ [fallback])).
    apply NoDup_incl_length; [|exact Hin].
    rewrite Hkeys. apply Counter_NoDup.
Qed.

(* ================================================================== *)
(** * Further properties of the statistics by month *)

Lemma bump_month_income (o : option month_entry) (t : transaction) :
  income (bump_month o t)
  == match o with Some e => income e | None => 0 end
     + (if is_income t then amount t else 0).
Proof.
  unfold bump_month, is_income.
  destruct (Qltb 0 (amount t)); [destruct o; simpl; ring|].
  destruct (Qltb (amount t) 0); destruct o; simpl; ring.
Qed.

Lemma bump_month_expenses (o : option month_entry) (t : transaction) :
  expenses (bump_month o t)
  == match o with Some e => expenses e | None => 0 end
     + (if is_expense t then amount t else 0).
Proof.
  unfold bump_month, is_expense.
  destruct (Qltb 0 (amount t)) eqn:E1.
  - rewrite (income_not_expense _ E1). destruct o; simpl; ring.
  - destruct (Qltb (amount t) 0); destruct o; simpl; ring.
Qed.

Section MonthTotals.
Variable datetime : Type.
Variable strptime : str -> option datetime.
Variable strftime : datetime -> str.

Local Abbreviation mstep' := (month_step strptime strftime).
Local Abbreviation mkeys := (month_keys strptime strftime).

Lemma month_step_income (ts : list transaction) (d : dict month_entry) :
  (forall t, In t ts -> strptime (date t) <> None) ->
  dict_total income (fold_left mstep' ts d)
  == dict_total income d + py_sum (map amount (filter is_income ts)).
Proof.
  revert d. induction ts as [|t ts IH]; intros d Hall.
  - simpl. unfold py_sum. simpl. ring.
  - cbn [fold_left filter]. rewrite IH by (intros x Hx; apply Hall; now right).
    unfold month_step, month_key.
    destruct (strptime (date t)) as [o|] eqn:E;
      [|exfalso; apply (Hall t); [now left|assumption]].
    unfold month_step_at. rewrite dict_total_set, bump_month_income.
    destruct (is_income t); cbn [map]; rewrite ?py_sum_cons;
      destruct (dict_get d (strftime o)); ring.
Qed.

Lemma month_step_expenses (ts : list transaction) (d : dict month_entry) :
  (forall t, In t ts -> strptime (date t) <> None) ->
  dict_total expenses (fold_left mstep' ts d)
  == dict_total expenses d + py_sum (map amount (filter is_expense ts)).
Proof.
  revert d. induction ts as [|t ts IH]; intros d Hall.
  - simpl. unfold py_sum. simpl. ring.
  - cbn [fold_left filter]. rewrite IH by (intros x Hx; apply Hall; now right).
    unfold month_step, month_key.
    destruct (strptime (date t)) as [o|] eqn:E;
      [|exfalso; apply (Hall t); [now left|assumption]].
    unfold month_step_at. rewrite dict_total_set, bump_month_expenses.
    destruct (is_expense t); cbn [map]; rewrite ?py_sum_cons;
      destruct (dict_get d (strftime o)); ring.
Qed.

Lemma month_step_keys_counter (ts : list transaction) (d : dict month_entry)
    (c : dict Z) :
  dict_keys d = dict_keys c ->
  dict_keys (fold_left mstep' ts d)
  = dict_keys (fold_left count_step (mkeys ts) c).
Proof.
  revert d c. induction ts as [|t ts IH]; intros d c H; [exact H|].
  cbn [fold_left]. unfold month_keys. cbn [flat_map]. fold (mkeys ts).
  unfold month_step at 2.
  destruct (month_key strptime strftime t) as [k|].
  - cbn [app fold_left]. apply IH. now apply dict_set_same_keys.
  - cbn [app]. now apply IH.
Qed.

Lemma month_keys_in (ts : list transaction) (k : str) :
  In k (mkeys ts) <->
  exists t, In t ts /\ month_key strptime strftime t = Some k.
Proof.
  unfold month_keys. rewrite in_flat_map. split.
  - intros (t & Hin & Hk). exists t. split; [assumption|].
    destruct (month_key strptime strftime t) as [k'|]; [|destruct Hk].
    destruct Hk as [->|[]]. reflexivity.
  - intros (t & Hin & Hk). exists t. split; [assumption|].
    rewrite Hk. now left.
Qed.

Lemma time_stats_totals (ts : list transaction) :
  (forall t, In t ts -> strptime (date t) <> None) ->
  exists stats,
    analyze_by_time strptime strftime ts = (OK stats, ts) /\
    dict_keys stats = dict_keys (Counter (mkeys ts)) /\
    dict_total income stats == py_sum (map amount (filter is_income ts)) /\
    dict_total expenses stats == py_sum (map amount (filter is_expense ts)).
Proof.
  intro Hall. eexists. split; [|split; [|split]].
  - rewrite analyze_by_time_spec, (time_loop_ok _ _ _ _ Hall). reflexivity.
  - rewrite (dict_keys_map finish_month).
    unfold Counter. rewrite Counter_fold.
    now apply month_step_keys_counter.
  - rewrite (dict_total_map income finish_month income) by reflexivity.
    rewrite month_step_income by assumption. simpl. ring.
  - rewrite (dict_total_map expenses finish_month expenses) by reflexivity.
    rewrite month_step_expenses by assumption. simpl. ring.
Qed.

End MonthTotals.



(** X14: the keys of the dictionary [analyze_by_time] returns are the
    month keys of the transactions, each once, in the order in which the
    months first occur in the input, which need not be the order of the
    calendar. *)
Theorem month_keys_order (datetime : Type)
    (strptime : str -> option datetime) (strftime : datetime -> str)
    (ts : list transaction) :
  (forall t, In t ts -> strptime (date t) <> None) ->
  exists months,
    fst (analyze_by_time strptime strftime ts) = OK months /\
    NoDup (dict_keys months) /\
    (forall k, In k (dict_keys months) <->
               exists t, In t ts /\ month_key strptime strftime t = Some k) /\
    StronglySorted
      (fun a b => (first_index a (month_keys strptime strftime ts)
                   < first_index b (month_keys strptime strftime ts))%nat)
      (dict_keys months).
Proof.
  intro Hall.
  destruct (time_stats_totals strptime strftime ts Hall)
    as (months & Hrun & Hkeys & _).
  exists months. rewrite Hrun, Hkeys. split; [reflexivity|].
  split; [apply Counter_NoDup|]. split; [|apply Counter_keys_sorted].
  intro k. rewrite Counter_keys_in. apply month_keys_in.
Qed.

Lemma month_keys_order_witness :
  exists months,
    fst (analyze_by_time Lib.strptime Lib.strftime [Sample.taxi; Sample.salary])
    = OK months /\
    dict_keys months = [u "2024-02"; u "2024-01"].
Proof.
  destruct (@month_keys_order Lib.datetime Lib.strptime Lib.strftime
              [Sample.taxi; Sample.salary]) as (months & Hrun & _).
  - intros t [<-|[<-|[]]]; vm_compute; discriminate.
  - exists months. split; [exact Hrun|].
    vm_compute in Hrun. injection Hrun as <-. reflexivity.
Defined.

Lemma insert_desc_length (x : str * Z) (l : list (str * Z)) :
  List.length (insert_desc x l) = S (List.length l).
Proof.
  induction l as [|y l IH]; simpl; [reflexivity|].
  destruct (snd x <? snd y)%Z; simpl; [now rewrite IH|reflexivity].
Qed.

Lemma sorted_desc_length (l : list (str * Z)) :
  List.length (sorted_desc l) = List.length l.
Proof.
  induction l as [|x l IH]; simpl; [reflexivity|].
  now rewrite insert_desc_length, IH.
Qed.

Lemma insert_desc_total (x : str * Z) (l : list (str * Z)) :
  ranking_total (insert_desc x l) = (snd x + ranking_total l)%Z.
Proof.
  induction l as [|y l IH]; simpl; [reflexivity|].
  destruct (snd x <? snd y)%Z; simpl; [rewrite IH; lia|reflexivity].
Qed.

Lemma sorted_desc_total (l : list (str * Z)) :
  ranking_total (sorted_desc l) = ranking_total l.
Proof.
  induction l as [|x l IH]; simpl; [reflexivity|].
  now rewrite insert_desc_total, IH.
Qed.

Lemma ranking_total_set (d : dict Z) (k : str) (v : Z) :
  ranking_total (dict_set d k v)
  = (ranking_total d - match dict_get d k with Some n => n | None => 0 end + v)%Z.
Proof.
  induction d as [|[k0 v0] d IH]; simpl; [lia|].
  destruct (eqb_str k k0); simpl; [lia|]. rewrite IH. lia.
Qed.

Lemma count_fold_total (xs : list str) (c : dict Z) :
  ranking_total (fold_left count_step xs c)
  = (ranking_total c + Z.of_nat (List.length xs))%Z.
Proof.
  revert c. induction xs as [|x xs IH]; intro c.
  - simpl. lia.
  - cbn [fold_left List.length]. rewrite IH. unfold count_step.
    rewrite ranking_total_set. destruct (dict_get c x); lia.
Qed.

Lemma Counter_length (xs ds : list str) :
  NoDup ds -> (forall c, In c ds <-> In c xs) ->
  List.length (Counter xs) = List.length ds.
Proof.
  intros Hnd Hsame.
  rewrite <- (length_map fst (Counter xs)).
  apply Permutation_length.
  apply NoDup_Permutation; [apply Counter_NoDup|assumption|].
  intro c. change (map fst (Counter xs)) with (dict_keys (Counter xs)).
  rewrite Counter_keys_in. symmetry. apply Hsame.
Qed.

(** How many pairs [most_common] keeps, and what it keeps when nothing is
    cut off. *)
Lemma most_common_few (n : nat) (xs ds : list str) :
  NoDup ds -> (forall c, In c ds <-> In c xs) ->
  List.length (most_common n (Counter xs)) = Nat.min n (List.length ds) /\
  ((List.length ds <= n)%nat ->
   (forall c, In c xs -> In c (map fst (most_common n (Counter xs)))) /\
   ranking_total (most_common n (Counter xs)) = Z.of_nat (List.length xs)).
Proof.
  intros Hnd Hsame. unfold most_common.
  pose proof (@Counter_length xs ds Hnd Hsame) as Hlen.
  split.
  - now rewrite length_firstn, sorted_desc_length, Hlen.
  - intro Hle. rewrite firstn_all2 by (rewrite sorted_desc_length; lia).
    split.
    + intros c Hc. apply in_map_iff. exists (c, occurrences c xs).
      split; [reflexivity|]. apply sorted_desc_in. apply dict_get_in.
      rewrite Counter_get. apply occurrences_pos_in in Hc.
      destruct (occurrences c xs =? 0)%Z eqn:E;
        [apply Z.eqb_eq in E; lia|reflexivity].
    + rewrite sorted_desc_total. unfold Counter.
      rewrite Counter_fold, count_fold_total. reflexivity.
Qed.

(** X15: when every date parses, the [top_categories] of a month holds as
    many pairs as the month has distinct expense categories, up to 3; when
    there are at most 3, every one of them is listed and the counts add up
    to the number of expense transactions of the month. *)
Theorem top_categories_complete (datetime : Type)
    (strptime : str -> option datetime) (strftime : datetime -> str)
    (ts : list transaction) :
  (forall t, In t ts -> strptime (date t) <> None) ->
  exists months,
    fst (analyze_by_time strptime strftime ts) = OK months /\
    forall m e, In (m, e) months ->
      exists top,
        top_categories e = Some top /\
        let cats := month_expense_categories strptime strftime m ts in
        forall distinct,
          NoDup distinct -> (forall c, In c distinct <-> In c cats) ->
          List.length top = Nat.min 3 (List.length distinct) /\
          ((List.length distinct <= 3)%nat ->
           (forall c, In c cats -> In c (map fst top)) /\
           ranking_total top = Z.of_nat (List.length cats)).
Proof.
  intro Hall.
  destruct (time_stats_shape strptime strftime ts Hall)
    as (months & Hrun & Hnd & Hget).
  exists months. rewrite Hrun. split; [reflexivity|].
  intros m e Hin. apply (dict_in_get _ _ _ Hnd) in Hin. rewrite Hget in Hin.
  destruct (in_month strptime strftime m ts); [discriminate|].
  injection Hin as <-. eexists. split; [reflexivity|].
  intros cats ds Hds Hsame. now apply most_common_few.
Qed.

Lemma top_categories_complete_witness :
  exists months,
    fst (analyze_by_time Lib.strptime Lib.strftime
           [Sample.lunch; Sample.no_key; Sample.empty_key])
    = OK months /\
    forall m e, In (m, e) months -> exists top, top_categories e = Some top.
Proof.
  destruct (@top_categories_complete Lib.datetime Lib.strptime Lib.strftime
              [Sample.lunch; Sample.no_key; Sample.empty_key])
    as (months & Hrun & Htop).
  - intros t [<-|[<-|[<-|[]]]]; vm_compute; discriminate.
  - exists months. split; [exact Hrun|].
    intros m e Hin. destruct (Htop m e Hin) as (top & Ht & _). now exists top.
Defined.
